(** * predict_spring.py: the command-line food classifier

    A shallow embedding of [src/predict_spring.py].  The script loads a
    TensorFlow SavedModel and a JSON label table, decodes one image with
    OpenCV, runs one forward pass, and prints the best class followed by
    the (up to) five best classes.

    How the Python is rendered here:

    - the libraries and files the script talks to (TensorFlow, the label
      file, OpenCV, [np.argsort]) form a [world]; every call that can
      raise returns a [result];
    - the body of the script runs in the monad [py]: it appends to
      standard output, and ends by returning, by raising an exception, or
      by leaving through [sys.exit] ([SystemExit] is not an [Exception],
      so [except Exception] does not intercept it).

    The script is rendered twice.  The first rendering keeps to
    positions, labels and control flow: scores are the rational numbers
    the [np.float32] entries denote, [percent] is the exact product and
    [print] always succeeds.  The second rendering, [Full], has scores
    as single-precision floats (signed zeros, infinities, NaN, the
    rounded product) and a [print] that can raise; what is proved about
    the text of a percentage, about the lines of the output and about
    every way a run can end is proved of [Full]. *)

From Stdlib Require Import List String Ascii Bool Arith ZArith QArith Qround Qabs.
From Stdlib Require Import Lia Lqa Permutation Sorted DecimalString.
From Stdlib Require DecimalPos DecimalN.
From Stdlib Require Import SpecFloat.
Import ListNotations.

Local Open Scope string_scope.

(** ** Number formatting *)

Module Fmt.

(** [str(i)] for a non-negative Python int. *)
Definition dec (n : N) : string := NilZero.string_of_uint (N.to_uint n).

(** The character of one decimal digit, [0 <= d < 10]. *)
Definition digit_char (d : Z) : ascii := ascii_of_nat (48 + Z.to_nat d).

(** Rounding to the nearest integer, ties to the even one. *)
Definition round_half_even (q : Q) : Z :=
  let f := Qfloor q in
  match (q - inject_Z f ?= 1 # 2)%Q with
  | Lt => f
  | Gt => (f + 1)%Z
  | Eq => if Z.even f then f else (f + 1)%Z
  end.

(** The magnitude printed by ['.1f'], counted in tenths. *)
Definition tenths (x : Q) : Z := round_half_even (Qabs x * 10).

(** ['.1f'] keeps the sign of a negative number even when it rounds to
    zero: [format(-0.01, '.1f')] is ["-0.0"]. *)
Definition negative (x : Q) : bool :=
  match (x ?= 0)%Q with Lt => true | _ => false end.

Definition format_1f (x : Q) : string :=
  (if negative x then "-" else "")
  ++ dec (Z.to_N (tenths x / 10)) ++ "." ++ String (digit_char (tenths x mod 10)) "".

(** The number a numeral printed by [format_1f] denotes. *)
Definition printed_value (x : Q) : Q :=
  ((if negative x then -1 else 1) * (tenths x # 10))%Q.

(** Recogniser of numerals with exactly one digit after the decimal
    point: an optional minus sign, one or more digits, a point, one
    digit. *)
Definition is_digit (c : ascii) : bool :=
  (48 <=? nat_of_ascii c)%nat && (nat_of_ascii c <=? 57)%nat.

Fixpoint digits_point_digit (seen : bool) (s : string) : bool :=
  match s with
  | EmptyString => false
  | String c rest =>
      if is_digit c then digits_point_digit true rest
      else if Ascii.eqb c "." then
        seen && match rest with
                | String d EmptyString => is_digit d
                | _ => false
                end
      else false
  end.

Fixpoint all_digits (s : string) : bool :=
  match s with
  | EmptyString => true
  | String c rest => is_digit c && all_digits rest
  end.

(** A leading minus sign, and what follows it. *)
Definition strip_sign (s : string) : bool * string :=
  match s with
  | String "-" rest => (true, rest)
  | _ => (false, s)
  end.

Definition one_decimal (s : string) : bool :=
  digits_point_digit false (snd (strip_sign s)).

(** Reading a numeral back: the text before the first point and the
    text after it. *)
Fixpoint split_at_point (s : string) : string * string :=
  match s with
  | EmptyString => (EmptyString, EmptyString)
  | String c rest =>
      if Ascii.eqb c "." then (EmptyString, rest)
      else let (before, after) := split_at_point rest in (String c before, after)
  end.

Definition digit_value (c : ascii) : Z := Z.of_nat (nat_of_ascii c) - 48.

(** The rational number a numeral with one decimal digit denotes. *)
Definition numeral_value (s : string) : option Q :=
  if one_decimal s then
    let (minus, body) := strip_sign s in
    match split_at_point body with
    | (whole, String d EmptyString) =>
        match NilEmpty.uint_of_string whole with
        | Some u =>
            Some ((if minus then -1 else 1)
                  * ((10 * Z.of_N (N.of_uint u) + digit_value d) # 10))%Q
        | None => None
        end
    | _ => None
    end
  else None.

End Fmt.

(** ** Exceptions and the effect monad *)

(** An instance of a Python class deriving from [Exception]; [msg] is
    what [str(e)] returns. *)
Inductive exn : Type := Exception (msg : string).

Definition str (e : exn) : string := match e with Exception m => m end.

(** What a library call gives back: a value or a raised exception. *)
Inductive result (A : Type) : Type :=
| Ok (a : A)
| Fail (e : exn).
Arguments Ok {A} a.
Arguments Fail {A} e.

(** How a piece of the script ends. *)
Inductive outcome (A : Type) : Type :=
| Returned (a : A)
| Raised (e : exn)
| Exited (code : Z).
Arguments Returned {A} a.
Arguments Raised {A} e.
Arguments Exited {A} code.

(** Standard output: the text of each [print] call, oldest first; one
    line each, as long as no label or message holds a newline. *)
Definition stdout : Type := list string.

Definition py (A : Type) : Type := stdout -> outcome A * stdout.

Definition ret {A} (a : A) : py A := fun out => (Returned a, out).

Definition bind {A B} (c : py A) (k : A -> py B) : py B :=
  fun out =>
    match c out with
    | (Returned a, out') => k a out'
    | (Raised e, out') => (Raised e, out')
    | (Exited n, out') => (Exited n, out')
    end.

Notation "x <- c ;; k" := (bind c (fun x => k))
  (at level 61, c at next level, right associativity).
Notation "c ;; k" := (bind c (fun _ => k))
  (at level 61, right associativity).

Definition print (line : string) : py unit :=
  fun out => (Returned tt, (out ++ [line])%list).

Definition sys_exit {A} (code : Z) : py A := fun out => (Exited code, out).

Definition raise {A} (e : exn) : py A := fun out => (Raised e, out).

(** A library call inside the script. *)
Definition call {A} (r : result A) : py A :=
  match r with
  | Ok a => ret a
  | Fail e => raise e
  end.

(** [try: body / except Exception as e: handler e].  A [SystemExit]
    leaving [body] goes through. *)
Definition try_except {A} (body : py A) (handler : exn -> py A) : py A :=
  fun out =>
    match body out with
    | (Raised e, out') => handler e out'
    | other => other
    end.

(** [l[i]] on a Python list, for an index that is not negative. *)
Definition list_getitem {A} (l : list A) (i : nat) : py A :=
  match nth_error l i with
  | Some a => ret a
  | None => raise (Exception "list index out of range")
  end.

(** ** NumPy *)

Module Np.

(** [a[i]]: the entry, with 0 standing in for an index outside [a]
    ([ndarray_getitem] below raises there). *)
Definition score (a : list Q) (i : nat) : Q := nth i a 0%Q.

(** [a[i]] on a one-dimensional array, for an index that is not negative. *)
Definition ndarray_getitem (a : list Q) (i : nat) : py Q :=
  match nth_error a i with
  | Some x => ret x
  | None =>
      raise (Exception ("index " ++ Fmt.dec (N.of_nat i)
                        ++ " is out of bounds for axis 0 with size "
                        ++ Fmt.dec (N.of_nat (List.length a))))
  end.

Definition Qltb (x y : Q) : bool := negb (Qle_bool y x).

(** The scan of [np.argmax]: [best] holds the position of the largest
    entry seen so far and moves only on a strictly larger one, so the
    first of several equal maxima wins. *)
Fixpoint argmax_from (best : nat) (bv : Q) (i : nat) (a : list Q) : nat :=
  match a with
  | [] => best
  | x :: rest =>
      if Qltb bv x then argmax_from i x (S i) rest
      else argmax_from best bv (S i) rest
  end.

Definition argmax (a : list Q) : result nat :=
  match a with
  | [] => Fail (Exception "attempt to get argmax of an empty sequence")
  | x :: rest => Ok (argmax_from 0 x 1 rest)
  end.

(** What NumPy promises of [np.argsort(a)] with the default [kind]: the
    positions of [a], each once, in ascending order of their entries.
    The order among equal entries is left open. *)
Definition is_argsort (a : list Q) (order : list nat) : Prop :=
  Permutation order (seq 0 (List.length a))
  /\ StronglySorted (fun i j => (score a i <= score a j)%Q) order.

(** [l[-5:]]: the last five elements, all of them when there are fewer. *)
Definition last5 {A} (l : list A) : list A := skipn (List.length l - 5) l.

(** One conforming [argsort]: insertion sort, the way NumPy's portable
    quicksort finishes runs of at most 16 entries; equal entries keep
    their order. *)
Fixpoint insert_index (a : list Q) (i : nat) (sorted : list nat) : list nat :=
  match sorted with
  | [] => [i]
  | j :: rest =>
      if Qle_bool (score a i) (score a j) then i :: j :: rest
      else j :: insert_index a i rest
  end.

Definition stable_argsort (a : list Q) : list nat :=
  fold_right (insert_index a) [] (seq 0 (List.length a)).

End Np.

(** ** The world of one invocation *)

(** The outcomes of the calls the script makes outside itself.
    [signature] is the type of a loaded inference entry point and
    [ndarray] the type of image arrays; both are opaque. *)
Record world : Type := {
  signature : Type;
  ndarray : Type;
  (** [tf.saved_model.load('saved_model').signatures['serving_default']] *)
  saved_model_load : result signature;
  (** [json.load] of [food41_classes.json] *)
  json_load : result (list string);
  (** [cv2.imread]: [None] for a file that is missing or does not decode *)
  cv2_imread : string -> option ndarray;
  (** [cvtColor], [resize], [expand_dims], [astype], [preprocess_input]
      (lines 24 to 27) *)
  preprocess : ndarray -> result ndarray;
  (** [infer.structured_outputs], the forward pass and
      [result[output_key].numpy()[0]] (lines 30 to 32) *)
  run_inference : signature -> ndarray -> result (list Q);
  (** [np.argsort] *)
  np_argsort : list Q -> list nat
}.

(** The world keeps NumPy's promise. *)
Definition numpy_ok (w : world) : Prop :=
  forall a, Np.is_argsort a (np_argsort w a).

(** ** The script *)

Definition percent (score : Q) : Q := (score * 100)%Q.

Definition top_line (top_class : string) (top_confidence : Q) : string :=
  "Top prediction: " ++ top_class ++ " (" ++ Fmt.format_1f top_confidence ++ "%)".

Definition header_line : string := "All predictions:".

Definition rank_line (i : nat) (class_name : string) (confidence : Q) : string :=
  Fmt.dec (N.of_nat i) ++ ". " ++ class_name ++ ": "
  ++ Fmt.format_1f confidence ++ "%".

(** [np.argsort(predictions)[-5:][::-1]] *)
Definition top_indices (w : world) (predictions : list Q) : list nat :=
  List.rev (Np.last5 (np_argsort w predictions)).

(** The loop [for i, idx in enumerate(top_indices, 1): print(...)],
    entered at rank [i]. *)
Fixpoint print_ranked (class_names : list string) (predictions : list Q)
  (i : nat) (indices : list nat) : py unit :=
  match indices with
  | [] => ret tt
  | idx :: rest =>
      class_name <- list_getitem class_names idx ;;
      p <- Np.ndarray_getitem predictions idx ;;
      print (rank_line i class_name (percent p)) ;;
      print_ranked class_names predictions (S i) rest
  end.

Definition predict_image (w : world) (image_path : string) : py unit :=
  infer <- call (saved_model_load w) ;;
  class_names <- call (json_load w) ;;
  match cv2_imread w image_path with
  | None =>
      print "Error: Could not read image" ;;
      sys_exit 1
  | Some img =>
      img_array <- call (preprocess w img) ;;
      predictions <- call (run_inference w infer img_array) ;;
      top_idx <- call (Np.argmax predictions) ;;
      top_class <- list_getitem class_names top_idx ;;
      top_score <- Np.ndarray_getitem predictions top_idx ;;
      print (top_line top_class (percent top_score)) ;;
      print header_line ;;
      print_ranked class_names predictions 1 (top_indices w predictions)
  end.

Definition main (w : world) (argv : list string) : py unit :=
  if (List.length argv <? 2)%nat then
    print "Error: No image path provided" ;;
    sys_exit 1
  else
    try_except
      (image_path <- list_getitem argv 1 ;;
       predict_image w image_path)
      (fun e => print ("Error: " ++ str e) ;; sys_exit 1).

(** The exit status of the process: 0 when the script runs off its end,
    the argument of [sys.exit], 1 for an exception nobody caught. *)
Definition exit_status {A} (o : outcome A) : Z :=
  match o with
  | Returned _ => 0
  | Raised _ => 1
  | Exited code => code
  end.

(** One invocation: the exit status and what was printed. *)
Definition run (w : world) (argv : list string) : Z * stdout :=
  let (o, out) := main w argv [] in (exit_status o, out).

(** ** What a report looks like *)

(** The lines of the numbered list when every lookup succeeds: position
    [idx] is shown with its label and its score as a percentage. *)
Fixpoint ranked_lines (class_names : list string) (predictions : list Q)
  (i : nat) (indices : list nat) : list string :=
  match indices with
  | [] => []
  | idx :: rest =>
      rank_line i (nth idx class_names "") (percent (Np.score predictions idx))
      :: ranked_lines class_names predictions (S i) rest
  end.

(** The full report: the summary line for [top_idx], the header, and the
    numbered list for [indices]. *)
Definition report (class_names : list string) (predictions : list Q)
  (top_idx : nat) (indices : list nat) : list string :=
  top_line (nth top_idx class_names "") (percent (Np.score predictions top_idx))
  :: header_line
  :: ranked_lines class_names predictions 1 indices.

(** The invocation gets as far as a prediction vector: the model and the
    label table load, the image decodes, and preprocessing and inference
    succeed (lines 11 to 32 of the script). *)
Definition reaches_ranking (w : world) (image_path : string)
  (class_names : list string) (predictions : list Q) : Prop :=
  exists infer img img_array,
    saved_model_load w = Ok infer
    /\ json_load w = Ok class_names
    /\ cv2_imread w image_path = Some img
    /\ preprocess w img = Ok img_array
    /\ run_inference w infer img_array = Ok predictions.

(** Lines 34 to 46 of [predict_image], once [class_names] and
    [predictions] are known. *)
Definition rank_and_print (w : world) (class_names : list string)
  (predictions : list Q) : py unit :=
  top_idx <- call (Np.argmax predictions) ;;
  top_class <- list_getitem class_names top_idx ;;
  top_score <- Np.ndarray_getitem predictions top_idx ;;
  print (top_line top_class (percent top_score)) ;;
  print header_line ;;
  print_ranked class_names predictions 1 (top_indices w predictions).

(** [r] is the first position holding the largest entry of [a]: what
    [np.argmax] returns. *)
Definition first_max (a : list Q) (r : nat) : Prop :=
  (r < List.length a)%nat
  /\ (forall j, (j < List.length a)%nat -> (Np.score a j <= Np.score a r)%Q)
  /\ (forall j, (j < r)%nat -> (Np.score a j < Np.score a r)%Q).

(** The largest entry of [a] sits at [r] and nowhere else. *)
Definition unique_max (a : list Q) (r : nat) : Prop :=
  forall j, (j < List.length a)%nat -> j <> r -> (Np.score a j < Np.score a r)%Q.

(** A line that shows the score [p] of [predictions] as a percentage. *)
Definition percentage_line (predictions : list Q) (line : string) (p : Q) : Prop :=
  In p predictions
  /\ exists label,
       line = top_line label (percent p)
       \/ exists i, line = rank_line i label (percent p).

Definition error_line (line : string) : Prop :=
  exists msg, line = "Error: " ++ msg.

(** ** Concrete worlds *)

(** A world whose library calls have fixed outcomes: the model loads as
    [model], the label file as [labels], every path decodes as [image],
    inference gives [predictions], and [np.argsort] is the insertion
    sort. *)
Definition fixed_world (model : result unit) (labels : result (list string))
  (image : option unit) (predictions : result (list Q)) : world :=
  {| signature := unit;
     ndarray := unit;
     saved_model_load := model;
     json_load := labels;
     cv2_imread := fun _ => image;
     preprocess := fun img => Ok img;
     run_inference := fun _ _ => predictions;
     np_argsort := Np.stable_argsort |}.

(** A working installation: every call succeeds. *)
Definition healthy_world (labels : list string) (predictions : list Q) : world :=
  fixed_world (Ok tt) (Ok labels) (Some tt) (Ok predictions).

Definition argv_with_image : list string := ["predict_spring.py"; "dish.jpg"].

(** Label tables and prediction vectors used in the examples. *)
Definition menu : list string :=
  ["apple_pie"; "bibimbap"; "cannoli"; "donuts"; "edamame"].

(** One class clearly ahead. *)
Definition clear_scores : list Q := [1 # 8; 1 # 2; 1 # 4; 1 # 16; 1 # 16]%Q.

(** Two classes sharing the largest score. *)
Definition tied_scores : list Q := [1 # 2; 1 # 2; 0; 0; 0]%Q.

(** A model with two classes only. *)
Definition short_menu : list string := ["apple_pie"; "bibimbap"].
Definition short_scores : list Q := [3 # 4; 1 # 4]%Q.


(** ** Reading the output *)



(** A label table for six classes. *)
Definition long_menu : list string :=
  ["apple_pie"; "bibimbap"; "cannoli"; "donuts"; "edamame"; "falafel"].

(** ** Proof steps *)

(** One step of a script whose next statement is the library call whose
    outcome [H] gives. *)
Ltac run_call H := unfold bind at 1; rewrite H; cbn [call ret raise].


(** * The script over single-precision scores and a console that can refuse

    The rendering above takes scores as exact rationals and a standard
    output that prints whatever it is given; that serves for what the
    script does with positions, labels and control flow.  What follows
    renders the same script with what that leaves out:

    - scores are IEEE 754 single-precision numbers ([np.float32]), with
      signed zeros, infinities and NaN; [predictions[idx] * 100] is the
      single-precision product (under NumPy 2 a [float32] scalar times a
      Python int stays [float32]), and ['.1f'] prints [nan], [inf] and
      [-0.0] where Python does;
    - [print] raises when standard output cannot take the text (a
      [UnicodeEncodeError] for a label outside its encoding); the text is
      then not written, and what was printed before stays;
    - a text printed is not always one line: [lines] cuts what was
      written at the line feeds. *)

(** ** Single-precision numbers *)

Module F32.

Definition prec : Z := 24.
Definition emax : Z := 128.

(** The float nearest to [m * 2^e]. *)
Definition make (m e : Z) : spec_float := binary_normalize prec emax m e false.

(** The Python int 100 as a float: [13107200 * 2^-17]. *)
Definition hundred : spec_float := S754_finite false 13107200 (-17).

(** [x * 100], rounded to nearest, ties to even. *)
Definition times_100 (x : spec_float) : spec_float := SFmul prec emax x hundred.

Definition is_finite (x : spec_float) : bool :=
  match x with
  | S754_zero _ | S754_finite _ _ _ => true
  | S754_infinity _ | S754_nan => false
  end.

(** [m * 2^e] as a rational number. *)
Definition magnitude (m : positive) (e : Z) : Q :=
  match e with
  | Z0 => Zpos m # 1
  | Zpos p => Zpos (m * 2 ^ p) # 1
  | Zneg p => Zpos m # (2 ^ p)
  end.

(** The number a finite float denotes (0 for the others). *)
Definition value (x : spec_float) : Q :=
  match x with
  | S754_finite s m e => if s then (- magnitude m e)%Q else magnitude m e
  | _ => 0%Q
  end.

(** The order NumPy sorts and compares floats by, as a rational key:
    finite floats by value (so [-0.0] and [0.0] are equal), the
    infinities beyond every single-precision number, NaN above all
    ([np.sort] puts NaN last, [np.argmax] takes the first NaN). *)
Definition key (x : spec_float) : Q :=
  match x with
  | S754_nan => inject_Z (2 ^ 129)
  | S754_infinity s => if s then inject_Z (- 2 ^ 128) else inject_Z (2 ^ 128)
  | _ => value x
  end.

(** Python's [format(x, '.1f')] on a float. *)
Definition format_1f (x : spec_float) : string :=
  match x with
  | S754_nan => "nan"
  | S754_infinity s => if s then "-inf" else "inf"
  | S754_zero s => if s then "-0.0" else "0.0"
  | S754_finite _ _ _ => Fmt.format_1f (value x)
  end.

(** The number the numeral printed for a finite float denotes. *)
Definition printed_value (x : spec_float) : Q :=
  match x with
  | S754_zero s => ((if s then -1 else 1) * (0 # 10))%Q
  | _ => Fmt.printed_value (value x)
  end.

End F32.

(** ** Reading standard output by lines *)

Definition line_feed : ascii := "010"%char.

Fixpoint no_line_feed (s : string) : bool :=
  match s with
  | EmptyString => true
  | String c rest => negb (Ascii.eqb c line_feed) && no_line_feed rest
  end.

(** What reaches standard output: [print] writes its text, then a line
    feed. *)
Fixpoint written (out : stdout) : string :=
  match out with
  | [] => ""
  | text :: rest => text ++ String line_feed (written rest)
  end.

(** The lines of a text, cut at the line feeds. *)
Fixpoint lines (text : string) : list string :=
  match text with
  | EmptyString => []
  | String c rest =>
      if Ascii.eqb c line_feed then "" :: lines rest
      else match lines rest with
           | [] => [String c ""]
           | line :: more => String c line :: more
           end
  end.

(** ** The script, in full *)

Module Full.

Record world : Type := {
  signature : Type;
  ndarray : Type;
  (** [tf.saved_model.load('saved_model').signatures['serving_default']] *)
  saved_model_load : result signature;
  (** [json.load] of [food41_classes.json] *)
  json_load : result (list string);
  (** [cv2.imread]: [None] for a file that is missing or does not decode *)
  cv2_imread : string -> option ndarray;
  (** [cvtColor], [resize], [expand_dims], [astype], [preprocess_input]
      (lines 24 to 27) *)
  preprocess : ndarray -> result ndarray;
  (** [infer.structured_outputs], the forward pass and
      [result[output_key].numpy()[0]] (lines 30 to 32) *)
  run_inference : signature -> ndarray -> result (list spec_float);
  (** [np.argsort] *)
  np_argsort : list spec_float -> list nat;
  (** the exception [print] raises on a text standard output cannot
      take, [None] for a text it writes *)
  stdout_refuses : string -> option exn
}.

(** [np.argsort] returns the positions in ascending order of the
    entries, NaN last; the order among entries that compare equal is
    left open. *)
Definition numpy_ok (w : world) : Prop :=
  forall a, Np.is_argsort (map F32.key a) (np_argsort w a).

(** Standard output takes every text. *)
Definition stdout_takes_all (w : world) : Prop :=
  forall text, stdout_refuses w text = None.

Definition print (w : world) (text : string) : py unit :=
  fun out =>
    match stdout_refuses w text with
    | None => (Returned tt, (out ++ [text])%list)
    | Some e => (Raised e, out)
    end.

(** [a[i]], with [0.0] standing in for an index outside [a]
    ([ndarray_getitem] below raises there). *)
Definition score (a : list spec_float) (i : nat) : spec_float :=
  nth i a (S754_zero false).

Definition ndarray_getitem (a : list spec_float) (i : nat) : py spec_float :=
  match nth_error a i with
  | Some x => ret x
  | None =>
      raise (Exception ("index " ++ Fmt.dec (N.of_nat i)
                        ++ " is out of bounds for axis 0 with size "
                        ++ Fmt.dec (N.of_nat (List.length a))))
  end.

(** [np.argmax]: the first position of the largest entry, a NaN counting
    as the largest. *)
Definition argmax (a : list spec_float) : result nat :=
  Np.argmax (map F32.key a).

Definition top_line (top_class : string) (top_confidence : spec_float) : string :=
  "Top prediction: " ++ top_class ++ " (" ++ F32.format_1f top_confidence ++ "%)".

Definition rank_line (i : nat) (class_name : string) (confidence : spec_float)
  : string :=
  Fmt.dec (N.of_nat i) ++ ". " ++ class_name ++ ": "
  ++ F32.format_1f confidence ++ "%".

(** [np.argsort(predictions)[-5:][::-1]] *)
Definition top_indices (w : world) (predictions : list spec_float) : list nat :=
  List.rev (Np.last5 (np_argsort w predictions)).

(** The loop [for i, idx in enumerate(top_indices, 1): print(...)],
    entered at rank [i]. *)
Fixpoint print_ranked (w : world) (class_names : list string)
  (predictions : list spec_float) (i : nat) (indices : list nat) : py unit :=
  match indices with
  | [] => ret tt
  | idx :: rest =>
      class_name <- list_getitem class_names idx ;;
      p <- ndarray_getitem predictions idx ;;
      print w (rank_line i class_name (F32.times_100 p)) ;;
      print_ranked w class_names predictions (S i) rest
  end.

Definition predict_image (w : world) (image_path : string) : py unit :=
  infer <- call (saved_model_load w) ;;
  class_names <- call (json_load w) ;;
  match cv2_imread w image_path with
  | None =>
      print w "Error: Could not read image" ;;
      sys_exit 1
  | Some img =>
      img_array <- call (preprocess w img) ;;
      predictions <- call (run_inference w infer img_array) ;;
      top_idx <- call (argmax predictions) ;;
      top_class <- list_getitem class_names top_idx ;;
      top_score <- ndarray_getitem predictions top_idx ;;
      print w (top_line top_class (F32.times_100 top_score)) ;;
      print w header_line ;;
      print_ranked w class_names predictions 1 (top_indices w predictions)
  end.

Definition main (w : world) (argv : list string) : py unit :=
  if (List.length argv <? 2)%nat then
    print w "Error: No image path provided" ;;
    sys_exit 1
  else
    try_except
      (image_path <- list_getitem argv 1 ;;
       predict_image w image_path)
      (fun e => print w ("Error: " ++ str e) ;; sys_exit 1).

(** One invocation: the exit status and the texts printed.  An exception
    that nobody catches (a [print] refused outside the [try], or in the
    handler itself) ends the process with status 1. *)
Definition run (w : world) (argv : list string) : Z * stdout :=
  let (o, out) := main w argv [] in (exit_status o, out).

(** Lines 34 to 46 of [predict_image], once [class_names] and
    [predictions] are known. *)
Definition rank_and_print (w : world) (class_names : list string)
  (predictions : list spec_float) : py unit :=
  top_idx <- call (argmax predictions) ;;
  top_class <- list_getitem class_names top_idx ;;
  top_score <- ndarray_getitem predictions top_idx ;;
  print w (top_line top_class (F32.times_100 top_score)) ;;
  print w header_line ;;
  print_ranked w class_names predictions 1 (top_indices w predictions).

(** The texts of the numbered list when every lookup succeeds. *)
Fixpoint ranked_lines (class_names : list string) (predictions : list spec_float)
  (i : nat) (indices : list nat) : list string :=
  match indices with
  | [] => []
  | idx :: rest =>
      rank_line i (nth idx class_names "") (F32.times_100 (score predictions idx))
      :: ranked_lines class_names predictions (S i) rest
  end.

(** The full report: the summary line for [top_idx], the header, and the
    numbered list for [indices]. *)
Definition report (class_names : list string) (predictions : list spec_float)
  (top_idx : nat) (indices : list nat) : list string :=
  top_line (nth top_idx class_names "")
           (F32.times_100 (score predictions top_idx))
  :: header_line
  :: ranked_lines class_names predictions 1 indices.

(** The invocation gets as far as a prediction vector (lines 11 to 32). *)
Definition reaches_ranking (w : world) (image_path : string)
  (class_names : list string) (predictions : list spec_float) : Prop :=
  exists infer img img_array,
    saved_model_load w = Ok infer
    /\ json_load w = Ok class_names
    /\ cv2_imread w image_path = Some img
    /\ preprocess w img = Ok img_array
    /\ run_inference w infer img_array = Ok predictions.

(** The label table has a name for every class the model scores. *)
Definition labels_cover (w : world) : Prop :=
  forall class_names infer img_array predictions,
    json_load w = Ok class_names ->
    run_inference w infer img_array = Ok predictions ->
    (List.length predictions <= List.length class_names)%nat.

(** The largest entry of [a], in NumPy's order, sits at [r] and nowhere
    else. *)
Definition unique_max (a : list spec_float) (r : nat) : Prop :=
  forall j, (j < List.length a)%nat -> j <> r ->
            (F32.key (score a j) < F32.key (score a r))%Q.

(** The entries at [i] and [j] compare equal. *)
Definition ties (a : list spec_float) (i j : nat) : Prop :=
  (F32.key (score a i) == F32.key (score a j))%Q.


(** A text that shows the score [p] of [predictions] as a percentage. *)
Definition percentage_line (predictions : list spec_float) (line : string)
  (p : spec_float) : Prop :=
  In p predictions
  /\ exists label,
       line = top_line label (F32.times_100 p)
       \/ exists i, line = rank_line i label (F32.times_100 p).

(** ** Concrete worlds *)

(** Insertion sort on NumPy's order. *)
Definition stable_argsort (a : list spec_float) : list nat :=
  Np.stable_argsort (map F32.key a).

(** A world with fixed outcomes; [refuses] is what standard output does
    with a text. *)
Definition fixed_world (model : result unit) (labels : result (list string))
  (image : option unit) (predictions : result (list spec_float))
  (refuses : string -> option exn) : world :=
  {| signature := unit;
     ndarray := unit;
     saved_model_load := model;
     json_load := labels;
     cv2_imread := fun _ => image;
     preprocess := fun img => Ok img;
     run_inference := fun _ _ => predictions;
     np_argsort := stable_argsort;
     stdout_refuses := refuses |}.

(** A working installation writing to a standard output that takes every
    text. *)
Definition healthy_world (labels : list string) (predictions : list spec_float)
  : world :=
  fixed_world (Ok tt) (Ok labels) (Some tt) (Ok predictions) (fun _ => None).

(** A standard output that takes ASCII only, the way a C-locale console
    does. *)
Fixpoint is_ascii (s : string) : bool :=
  match s with
  | EmptyString => true
  | String c rest => (nat_of_ascii c <? 128)%nat && is_ascii rest
  end.

Definition ascii_only (text : string) : option exn :=
  if is_ascii text then None
  else Some (Exception "'ascii' codec can't encode character").

(** Two labels, the second outside ASCII ([e] with an acute accent, in
    UTF-8, then [clair]). *)
Definition accented_menu : list string :=
  ["apple_pie"; String "195" (String "169" "clair")].

(** Prediction vectors used in the examples. *)

(** 0.125, 0.5, 0.25, 0.0625, 0.0625: one class clearly ahead. *)
Definition clear_scores : list spec_float :=
  [F32.make 1 (-3); F32.make 1 (-1); F32.make 1 (-2); F32.make 1 (-4);
   F32.make 1 (-4)].

(** 0.5, 0.5, 0, 0, 0: two classes sharing the largest score. *)
Definition tied_scores : list spec_float :=
  [F32.make 1 (-1); F32.make 1 (-1); S754_zero false; S754_zero false;
   S754_zero false].

(** 0.0, -1, -1, -1, -0.0: the two zeros compare equal. *)
Definition zero_scores : list spec_float :=
  [S754_zero false; F32.make (-1) 0; F32.make (-1) 0; F32.make (-1) 0;
   S754_zero true].

(** 2, 1, 0, -1, -2: a model that emits raw logits. *)
Definition logit_scores : list spec_float :=
  [F32.make 2 0; F32.make 1 0; S754_zero false; F32.make (-1) 0;
   F32.make (-2) 0].

(** 0.75, 0.25: a model with two classes only. *)
Definition short_scores : list spec_float := [F32.make 3 (-2); F32.make 1 (-2)].

(** The floats nearest to 0.0075 and to 3e37, and a NaN. *)
Definition wild_scores : list spec_float :=
  [F32.make 16106127 (-31); F32.make 11832914 101; S754_nan].

(** 0.0 followed by five times -0.0: six entries that compare equal. *)
Definition flat_scores : list spec_float :=
  [S754_zero false; S754_zero true; S754_zero true; S754_zero true;
   S754_zero true; S754_zero true].

End Full.

(** ** Proof steps for the script in full *)

(** One step of a script whose next statement is a [print] of a text
    that standard output takes, as [H] says. *)
Ltac run_print_full H :=
  unfold bind at 1, Full.print at 1; rewrite H.

(** * Facts about the formatter *)

Section FormatFacts.
Import Fmt.

Lemma is_digit_digit_char (d : Z) :
  (0 <= d < 10)%Z -> is_digit (digit_char d) = true.
Proof.
  intros Hd. unfold is_digit, digit_char.
  rewrite nat_ascii_embedding by lia.
  apply andb_true_intro; split; apply Nat.leb_le; lia.
Qed.

Lemma all_digits_string_of_uint (u : Decimal.uint) :
  all_digits (NilEmpty.string_of_uint u) = true.
Proof.
  induction u; simpl; auto.
Qed.

Lemma all_digits_dec (n : N) : all_digits (dec n) = true.
Proof.
  unfold dec, NilZero.string_of_uint.
  destruct (N.to_uint n) eqn:E; try reflexivity;
    rewrite <- E at 1; rewrite E; apply all_digits_string_of_uint.
Qed.

Lemma dec_nonempty (n : N) : dec n <> "".
Proof.
  unfold dec, NilZero.string_of_uint.
  destruct (N.to_uint n); simpl; discriminate.
Qed.

Lemma digits_point_digit_app (ds : string) (d : ascii) (seen : bool) :
  all_digits ds = true -> is_digit d = true ->
  digits_point_digit seen (ds ++ "." ++ String d "")
  = seen || negb (String.eqb ds "").
Proof.
  intros Hds Hd. revert seen. induction ds as [|c r IH]; intros seen.
  - simpl. rewrite Hd. now rewrite orb_false_r, andb_true_r.
  - simpl in Hds. apply andb_prop in Hds as [Hc Hr].
    cbn [append digits_point_digit]. rewrite Hc, (IH Hr). simpl.
    now rewrite orb_true_r.
Qed.

Lemma strip_sign_digit_first (c : ascii) (r : string) :
  is_digit c = true -> strip_sign (String c r) = (false, String c r).
Proof.
  destruct c as [[] [] [] [] [] [] [] []]; try reflexivity; discriminate.
Qed.

(** The text of [format_1f x] after its sign. *)
Lemma strip_sign_format_1f (x : Q) :
  strip_sign (format_1f x)
  = (negative x,
     dec (Z.to_N (tenths x / 10)) ++ "."
     ++ String (digit_char (tenths x mod 10)) "").
Proof.
  unfold format_1f. destruct (negative x); [reflexivity|].
  cbn [append].
  pose proof (all_digits_dec (Z.to_N (tenths x / 10))) as Hall.
  pose proof (dec_nonempty (Z.to_N (tenths x / 10))) as Hne.
  destruct (dec (Z.to_N (tenths x / 10))) as [|c r]; [congruence|].
  simpl in Hall. apply andb_prop in Hall as [Hc _].
  cbn [append]. now apply strip_sign_digit_first.
Qed.

Lemma one_decimal_format_1f (x : Q) : one_decimal (format_1f x) = true.
Proof.
  unfold one_decimal. rewrite strip_sign_format_1f. cbn [snd].
  rewrite digits_point_digit_app.
  - destruct (dec (Z.to_N (tenths x / 10))) eqn:E; [|reflexivity].
    now apply dec_nonempty in E.
  - apply all_digits_dec.
  - apply is_digit_digit_char, Z.mod_pos_bound. lia.
Qed.

Lemma is_digit_not_point (c : ascii) :
  is_digit c = true -> Ascii.eqb c "." = false.
Proof.
  destruct c as [[] [] [] [] [] [] [] []]; try reflexivity; discriminate.
Qed.

Lemma split_at_point_digits (ds rest : string) :
  all_digits ds = true ->
  split_at_point (ds ++ "." ++ rest) = (ds, rest).
Proof.
  induction ds as [|c r IH]; intros H.
  - reflexivity.
  - simpl in H. apply andb_prop in H as [Hc Hr].
    cbn [append split_at_point]. rewrite (is_digit_not_point c Hc).
    cbn [append] in IH. now rewrite (IH Hr).
Qed.

Lemma digit_value_digit_char (d : Z) :
  (0 <= d < 10)%Z -> digit_value (digit_char d) = d.
Proof.
  intros H. unfold digit_value, digit_char.
  rewrite nat_ascii_embedding by lia. lia.
Qed.

Lemma uint_of_string_dec (n : N) :
  NilEmpty.uint_of_string (dec n) = Some (N.to_uint n).
Proof.
  unfold dec, NilZero.string_of_uint.
  destruct (N.to_uint n) eqn:E; try (rewrite <- E at 2; rewrite E; apply NilEmpty.usu).
  destruct n as [|p]; [discriminate|].
  now apply DecimalPos.Unsigned.to_uint_nonnil in E.
Qed.

End FormatFacts.

Section RoundingFacts.
Import Fmt.
Local Open Scope Q_scope.

Lemma negative_false (x : Q) : 0 <= x -> negative x = false.
Proof.
  intros H. unfold negative. destruct (x ?= 0) eqn:E; try reflexivity.
  apply Qlt_alt in E. lra.
Qed.

End RoundingFacts.

Section Roundtrip.
Import Fmt.
Local Open Scope Q_scope.

Lemma round_half_even_nonneg (q : Q) : 0 <= q -> (0 <= round_half_even q)%Z.
Proof.
  intros H. unfold round_half_even.
  pose proof (Qfloor_resp_le _ _ H) as Hf. change (Qfloor 0) with 0%Z in Hf.
  destruct (q - inject_Z (Qfloor q) ?= 1 # 2); [destruct (Z.even _)| |]; lia.
Qed.

Lemma tenths_nonneg (x : Q) : (0 <= tenths x)%Z.
Proof.
  unfold tenths. apply round_half_even_nonneg.
  pose proof (Qabs_nonneg x). lra.
Qed.

(** Reading back what [format_1f] printed gives [printed_value]. *)
Lemma numeral_value_format_1f (x : Q) :
  numeral_value (format_1f x) = Some (printed_value x).
Proof.
  unfold numeral_value. rewrite one_decimal_format_1f, strip_sign_format_1f.
  rewrite split_at_point_digits by apply all_digits_dec.
  rewrite uint_of_string_dec, DecimalN.Unsigned.of_to.
  pose proof (tenths_nonneg x) as Ht.
  rewrite digit_value_digit_char by (apply Z.mod_pos_bound; lia).
  rewrite Z2N.id by (apply Z.div_pos; lia).
  unfold printed_value. do 3 f_equal.
  symmetry. apply Z.div_mod. lia.
Qed.

Lemma round_half_even_mono (x y : Q) :
  x <= y -> (round_half_even x <= round_half_even y)%Z.
Proof.
  intros H. unfold round_half_even.
  pose proof (Qfloor_resp_le _ _ H) as Hf.
  destruct (Z.eq_dec (Qfloor x) (Qfloor y)) as [E|E].
  - rewrite E.
    destruct (x - inject_Z (Qfloor y) ?= 1 # 2) eqn:Cx;
    destruct (y - inject_Z (Qfloor y) ?= 1 # 2) eqn:Cy;
    try destruct (Z.even (Qfloor y)); try lia;
    repeat match goal with
    | C : (_ ?= _) = Eq |- _ => apply Qeq_alt in C
    | C : (_ ?= _) = Lt |- _ => apply Qlt_alt in C
    | C : (_ ?= _) = Gt |- _ => apply Qgt_alt in C
    end; lra.
  - destruct (x - inject_Z (Qfloor x) ?= 1 # 2);
    destruct (y - inject_Z (Qfloor y) ?= 1 # 2);
    try destruct (Z.even (Qfloor x)); try destruct (Z.even (Qfloor y)); lia.
Qed.

End Roundtrip.

Section Mono.
Import Fmt.
Local Open Scope Q_scope.

Lemma negative_true (x : Q) : x < 0 -> negative x = true.
Proof.
  intros H. unfold negative. destruct (x ?= 0) eqn:E; try reflexivity.
  - apply Qeq_alt in E. lra.
  - apply Qgt_alt in E. lra.
Qed.

(** ['.1f'] is monotone: a larger number is never shown as a smaller
    numeral. *)
Lemma printed_value_mono (x y : Q) :
  x <= y -> printed_value x <= printed_value y.
Proof.
  intros H. unfold printed_value.
  pose proof (tenths_nonneg x) as Tx. pose proof (tenths_nonneg y) as Ty.
  destruct (Qlt_le_dec x 0) as [Hx|Hx]; destruct (Qlt_le_dec y 0) as [Hy|Hy].
  - rewrite !negative_true by assumption.
    assert (Hm : (tenths y <= tenths x)%Z).
    { unfold tenths. apply round_half_even_mono.
      rewrite !Qabs_neg by lra. lra. }
    unfold Qle, Qmult. cbn [Qnum Qden]. lia.
  - rewrite negative_true, negative_false by assumption.
    unfold Qle, Qmult. cbn [Qnum Qden]. lia.
  - lra.
  - rewrite !negative_false by assumption.
    assert (Hm : (tenths x <= tenths y)%Z).
    { unfold tenths. apply round_half_even_mono.
      rewrite !Qabs_pos by lra. lra. }
    unfold Qle, Qmult. cbn [Qnum Qden]. lia.
Qed.

End Mono.

Section RoundingAccuracy.
Import Fmt.
Local Open Scope Q_scope.

Lemma round_half_even_close (q : Q) :
  inject_Z (round_half_even q) - q <= 1 # 2
  /\ q - inject_Z (round_half_even q) <= 1 # 2.
Proof.
  unfold round_half_even.
  pose proof (Qfloor_le q) as Hlo. pose proof (Qlt_floor q) as Hhi.
  rewrite inject_Z_plus in Hhi. change (inject_Z 1) with 1 in Hhi.
  destruct (q - inject_Z (Qfloor q) ?= 1 # 2) eqn:C.
  - apply Qeq_alt in C.
    destruct (Z.even (Qfloor q)); [|rewrite inject_Z_plus; change (inject_Z 1) with 1];
      split; lra.
  - apply Qlt_alt in C. split; lra.
  - apply Qgt_alt in C. rewrite inject_Z_plus. change (inject_Z 1) with 1.
    split; lra.
Qed.

Lemma printed_value_close (x : Q) : Qabs (printed_value x - x) <= 1 # 20.
Proof.
  unfold printed_value, tenths.
  destruct (round_half_even_close (Qabs x * 10)) as [H1 H2].
  set (t := round_half_even (Qabs x * 10)) in *.
  assert (Ht : (t # 10) * 10 == inject_Z t).
  { unfold Qeq, Qmult, inject_Z. simpl. lia. }
  apply Qabs_Qle_condition.
  destruct (Qlt_le_dec x 0) as [Hx|Hx].
  - rewrite negative_true by exact Hx.
    rewrite (Qabs_neg x) in H1, H2 by lra. split; lra.
  - rewrite negative_false by exact Hx.
    rewrite (Qabs_pos x) in H1, H2 by lra. split; lra.
Qed.

End RoundingAccuracy.

(** * Facts about sorting, [argmax] and [argsort] *)

Section SortedLists.
Context {A : Type}.

Lemma StronglySorted_app_iff (R : A -> A -> Prop) (l1 l2 : list A) :
  StronglySorted R (l1 ++ l2) <->
  StronglySorted R l1 /\ StronglySorted R l2
  /\ (forall x y, In x l1 -> In y l2 -> R x y).
Proof.
  induction l1 as [|a l1 IH]; simpl.
  - split; [intros H; repeat split; [constructor | exact H | contradiction]
           | intros (_ & H & _); exact H].
  - split.
    + intros H. apply StronglySorted_inv in H as [Hs Hall].
      apply IH in Hs as (H1 & H2 & H12).
      rewrite Forall_app in Hall. destruct Hall as [Ha1 Ha2].
      rewrite Forall_forall in Ha2.
      repeat split; auto.
      * constructor; auto.
      * intros x y [<-|Hx] Hy; auto.
    + intros (H1 & H2 & H12).
      apply StronglySorted_inv in H1 as [Hs Hall].
      constructor.
      * apply IH. repeat split; auto.
      * rewrite Forall_app. split; auto.
        rewrite Forall_forall. intros y Hy. apply H12; auto.
Qed.

Lemma StronglySorted_rev (R : A -> A -> Prop) (l : list A) :
  StronglySorted R l -> StronglySorted (fun x y => R y x) (List.rev l).
Proof.
  induction 1 as [|a l Hs IH Hall]; simpl.
  - constructor.
  - apply StronglySorted_app_iff. repeat split.
    + exact IH.
    + repeat constructor.
    + intros x y Hx [<-|[]]. rewrite Forall_forall in Hall.
      apply Hall. now apply in_rev.
Qed.


End SortedLists.

Section ArgmaxFacts.
Import Np.
Local Open Scope Q_scope.

Lemma Qltb_lt (x y : Q) : Qltb x y = true <-> x < y.
Proof.
  unfold Qltb. rewrite negb_true_iff, <- not_true_iff_false, Qle_bool_iff.
  split; [apply Qnot_le_lt | apply Qlt_not_le].
Qed.

Lemma Qltb_ge (x y : Q) : Qltb x y = false <-> y <= x.
Proof.
  unfold Qltb. rewrite negb_false_iff. apply Qle_bool_iff.
Qed.

Lemma score_app_l (pre a : list Q) (j : nat) :
  (j < List.length pre)%nat -> score (pre ++ a) j = score pre j.
Proof. intros H. unfold score. now apply app_nth1. Qed.

Lemma score_snoc (pre : list Q) (x : Q) :
  score (pre ++ [x]) (List.length pre) = x.
Proof.
  unfold score. rewrite app_nth2, Nat.sub_diag by lia. reflexivity.
Qed.

Lemma argmax_from_first_max (a pre : list Q) (best : nat) (bv : Q) :
  (best < List.length pre)%nat ->
  score pre best = bv ->
  (forall j, (j < List.length pre)%nat -> score pre j <= bv) ->
  (forall j, (j < best)%nat -> score pre j < bv) ->
  first_max (pre ++ a) (argmax_from best bv (List.length pre) a).
Proof.
  revert pre best bv.
  induction a as [|x rest IH]; intros pre best bv Hb Hbv Hle Hlt; simpl.
  - rewrite app_nil_r. subst bv. repeat split; auto.
  - assert (Hlen : List.length (pre ++ [x]) = S (List.length pre))
      by (rewrite length_app; simpl; lia).
    replace (pre ++ x :: rest)%list with ((pre ++ [x]) ++ rest)%list
      by (now rewrite <- app_assoc).
    rewrite <- Hlen.
    destruct (Qltb bv x) eqn:C.
    + apply Qltb_lt in C.
      apply IH.
      * lia.
      * apply score_snoc.
      * intros j Hj. rewrite Hlen in Hj.
        destruct (Nat.eq_dec j (List.length pre)) as [->|Hne].
        -- rewrite score_snoc. apply Qle_refl.
        -- rewrite score_app_l by lia. apply Qlt_le_weak.
           eapply Qle_lt_trans; [apply Hle; lia | exact C].
      * intros j Hj. rewrite score_app_l by lia.
        eapply Qle_lt_trans; [apply Hle; lia | exact C].
    + apply Qltb_ge in C. apply IH.
      * lia.
      * rewrite score_app_l by lia. exact Hbv.
      * intros j Hj. rewrite Hlen in Hj.
        destruct (Nat.eq_dec j (List.length pre)) as [->|Hne].
        -- now rewrite score_snoc.
        -- rewrite score_app_l by lia. apply Hle. lia.
      * intros j Hj. rewrite score_app_l by lia. now apply Hlt.
Qed.

Lemma argmax_first_max (a : list Q) (r : nat) :
  argmax a = Ok r -> first_max a r.
Proof.
  destruct a as [|x rest]; simpl; [discriminate|].
  intros [= <-].
  apply (argmax_from_first_max rest [x] 0%nat x); simpl.
  - lia.
  - reflexivity.
  - intros j Hj. assert (j = 0%nat) as -> by lia. apply Qle_refl.
  - intros j Hj. lia.
Qed.

Lemma argmax_nonempty (a : list Q) :
  a <> [] -> exists r, argmax a = Ok r.
Proof.
  destruct a; [congruence|]. intros _. simpl. eauto.
Qed.

End ArgmaxFacts.

Section ArgsortFacts.
Import Np.
Local Open Scope Q_scope.

Variable a : list Q.
Variable order : list nat.
Hypothesis Hsort : is_argsort a order.

Lemma argsort_length : List.length order = List.length a.
Proof.
  destruct Hsort as [Hp _].
  rewrite (Permutation_length Hp). apply length_seq.
Qed.

Lemma argsort_In (i : nat) : In i order <-> (i < List.length a)%nat.
Proof.
  destruct Hsort as [Hp _]. split; intros H.
  - apply (Permutation_in _ Hp), in_seq in H. lia.
  - apply (Permutation_in _ (Permutation_sym Hp)), in_seq. lia.
Qed.


Local Notation "'top'" := (List.rev (last5 order)) (only parsing).

Lemma top_length : List.length top = Nat.min 5 (List.length a).
Proof.
  unfold last5. rewrite length_rev, length_skipn, argsort_length. lia.
Qed.

Lemma top_In_order (i : nat) : In i top -> In i order.
Proof.
  unfold last5. rewrite <- in_rev. intros H.
  rewrite <- (firstn_skipn (List.length order - 5) order).
  apply in_or_app. now right.
Qed.

Lemma top_in_range (i : nat) : In i top -> (i < List.length a)%nat.
Proof. intros H. now apply argsort_In, top_In_order. Qed.


Lemma top_descending :
  StronglySorted (fun i j => score a j <= score a i) top.
Proof.
  unfold last5.
  apply (StronglySorted_rev (fun i j => score a i <= score a j)).
  destruct Hsort as [_ Hs].
  rewrite <- (firstn_skipn (List.length order - 5) order) in Hs.
  now apply StronglySorted_app_iff in Hs as (_ & Hs & _).
Qed.

(** Every position left out scores no more than every position kept. *)
Lemma top_dominates (i j : nat) :
  In i top -> (j < List.length a)%nat -> ~ In j top ->
  score a j <= score a i.
Proof.
  unfold last5. rewrite <- !in_rev. intros Hi Hj Hnj.
  apply argsort_In in Hj.
  destruct Hsort as [_ Hs].
  rewrite <- (firstn_skipn (List.length order - 5) order) in Hs, Hj.
  apply StronglySorted_app_iff in Hs as (_ & _ & Hcross).
  apply in_app_or in Hj as [Hj|Hj]; [|contradiction].
  now apply Hcross.
Qed.

(** The first position of the ranking holds a largest entry. *)
Lemma top_head_max (i1 : nat) (rest : list nat) (j : nat) :
  top = i1 :: rest -> (j < List.length a)%nat -> score a j <= score a i1.
Proof.
  intros Htop Hj.
  destruct (Nat.eq_dec j i1) as [->|Hne]; [apply Qle_refl|].
  destruct (in_dec Nat.eq_dec j top) as [Hin|Hnin].
  - pose proof top_descending as Hd. rewrite Htop in Hd, Hin.
    apply StronglySorted_inv in Hd as [_ Hall].
    rewrite Forall_forall in Hall.
    destruct Hin as [->|Hin]; [congruence|]. now apply Hall.
  - apply top_dominates; auto. rewrite Htop. now left.
Qed.

Lemma top_nonempty : a <> [] -> top <> [].
Proof.
  intros Ha Ht. apply (f_equal (@List.length nat)) in Ht.
  rewrite top_length in Ht. destruct a; [congruence|]. simpl in Ht. lia.
Qed.

Lemma top_head_ties_argmax (r i1 : nat) (rest : list nat) :
  first_max a r -> top = i1 :: rest -> score a i1 == score a r.
Proof.
  intros (Hr & Hmax & _) Htop.
  apply Qle_antisym.
  - apply Hmax, top_in_range. rewrite Htop. now left.
  - now apply (top_head_max i1 rest).
Qed.

Lemma top_head_is_argmax (r i1 : nat) (rest : list nat) :
  first_max a r -> top = i1 :: rest -> unique_max a r -> i1 = r.
Proof.
  intros Hfm Htop Huniq.
  destruct (Nat.eq_dec i1 r) as [E|E]; [exact E|exfalso].
  pose proof (top_head_ties_argmax r i1 rest Hfm Htop) as Heq.
  assert (Hlt : score a i1 < score a r).
  { apply Huniq; auto. apply top_in_range. rewrite Htop. now left. }
  rewrite Heq in Hlt. now apply Qlt_irrefl in Hlt.
Qed.

End ArgsortFacts.

Section StableArgsort.
Import Np.
Local Open Scope Q_scope.

Lemma insert_index_perm (a : list Q) (i : nat) (l : list nat) :
  Permutation (insert_index a i l) (i :: l).
Proof.
  induction l as [|j l IH]; simpl; [reflexivity|].
  destruct (Qle_bool (score a i) (score a j)); [reflexivity|].
  rewrite IH. apply perm_swap.
Qed.

Lemma insert_index_sorted (a : list Q) (i : nat) (l : list nat) :
  StronglySorted (fun i j => score a i <= score a j) l ->
  StronglySorted (fun i j => score a i <= score a j) (insert_index a i l).
Proof.
  induction 1 as [|j l Hs IH Hall]; simpl.
  - repeat constructor.
  - destruct (Qle_bool (score a i) (score a j)) eqn:C.
    + apply Qle_bool_iff in C. constructor.
      * now constructor.
      * constructor; [exact C|].
        rewrite Forall_forall in *. intros k Hk.
        eapply Qle_trans; [exact C | now apply Hall].
    + assert (Hji : score a j <= score a i).
      { apply Qlt_le_weak, Qnot_le_lt. intros H.
        apply Qle_bool_iff in H. congruence. }
      constructor; [exact IH|].
      rewrite Forall_forall in *. intros k Hk.
      apply (Permutation_in _ (insert_index_perm a i l)) in Hk.
      destruct Hk as [<-|Hk]; auto.
Qed.

Lemma stable_argsort_ok (a : list Q) : is_argsort a (stable_argsort a).
Proof.
  unfold is_argsort, stable_argsort.
  generalize (seq 0 (List.length a)) as idxs.
  induction idxs as [|i idxs [IHp IHs]]; simpl.
  - split; constructor.
  - split.
    + rewrite insert_index_perm. now constructor.
    + now apply insert_index_sorted.
Qed.

End StableArgsort.

(** * Facts about runs *)

Section RunFacts.
Local Open Scope nat_scope.

Lemma nth_error_nth_lt {A} (l : list A) (i : nat) (d : A) :
  i < List.length l -> nth_error l i = Some (nth i l d).
Proof. intros H. now apply nth_error_nth'. Qed.

Lemma list_getitem_ok {A} (l : list A) (i : nat) (d : A) (out : stdout) :
  i < List.length l -> list_getitem l i out = (Returned (nth i l d), out).
Proof.
  intros H. unfold list_getitem. now rewrite (nth_error_nth_lt l i d H).
Qed.




(** Up to the prediction vector, [predict_image] is the sequence of its
    library calls. *)
Lemma predict_image_reaches_ranking (w : world) (image_path : string)
  (class_names : list string) (predictions : list Q) (out : stdout) :
  reaches_ranking w image_path class_names predictions ->
  predict_image w image_path out = rank_and_print w class_names predictions out.
Proof.
  intros (infer & img & img_array & Hm & Hl & Hi & Hp & Hr).
  unfold predict_image, rank_and_print.
  run_call Hm.
  run_call Hl.
  rewrite Hi.
  run_call Hp.
  run_call Hr.
  reflexivity.
Qed.




Lemma main_with_image (w : world) (argv : list string) (image_path : string)
  (out : stdout) :
  nth_error argv 1 = Some image_path ->
  main w argv out
  = try_except (predict_image w image_path)
      (fun e => print ("Error: " ++ str e) ;; sys_exit 1) out.
Proof.
  intros H. unfold main.
  assert (Hlen : (List.length argv <? 2) = false).
  { assert (1 < List.length argv) by (apply nth_error_Some; congruence).
    apply Nat.ltb_ge. lia. }
  rewrite Hlen. unfold try_except, bind at 1, list_getitem. rewrite H.
  reflexivity.
Qed.


End RunFacts.

Section RunInversion.
Local Open Scope nat_scope.

Lemma list_getitem_inv {A} (l : list A) (i : nat) (d : A) (out out' : stdout)
  (o : outcome A) :
  list_getitem l i out = (o, out') ->
  out' = out
  /\ ((i < List.length l /\ o = Returned (nth i l d))
      \/ (List.length l <= i
          /\ o = Raised (Exception "list index out of range"))).
Proof.
  unfold list_getitem. destruct (nth_error l i) as [a|] eqn:E.
  - intros [= <- <-]. split; [reflexivity|left]. split.
    + apply nth_error_Some. congruence.
    + now rewrite (nth_error_nth _ _ d E).
  - intros [= <- <-]. split; [reflexivity|right]. split; auto.
    now apply nth_error_None.
Qed.





End RunInversion.

Section RunCases.
Local Open Scope nat_scope.


Lemma argv_cases (argv : list string) :
  List.length argv < 2 \/ exists image_path, nth_error argv 1 = Some image_path.
Proof.
  destruct (nth_error argv 1) as [p|] eqn:E.
  - right. eauto.
  - left. apply nth_error_None in E. lia.
Qed.

Lemma run_without_image (w : world) (argv : list string) :
  List.length argv < 2 ->
  run w argv = (1%Z, ["Error: No image path provided"]).
Proof.
  intros H. unfold run, main.
  apply Nat.ltb_lt in H. rewrite H. reflexivity.
Qed.

Lemma run_raised (w : world) (argv : list string) (image_path : string)
  (e : exn) (out : stdout) :
  nth_error argv 1 = Some image_path ->
  predict_image w image_path [] = (Raised e, out) ->
  run w argv = (1%Z, (out ++ [("Error: " ++ str e)%string])%list).
Proof.
  intros Harg H. unfold run.
  rewrite (main_with_image _ _ _ _ Harg). unfold try_except. rewrite H.
  reflexivity.
Qed.


Lemma rank_and_print_empty (w : world) (class_names : list string)
  (out : stdout) :
  rank_and_print w class_names [] out
  = (Raised (Exception "attempt to get argmax of an empty sequence"), out).
Proof. reflexivity. Qed.

End RunCases.

Section PrintedLines.
Local Open Scope nat_scope.




End PrintedLines.

Section ConcreteWorlds.
Local Open Scope nat_scope.



End ConcreteWorlds.

Section ReportShape.
Local Open Scope nat_scope.

Lemma last5_length {A} (l : list A) : List.length (Np.last5 l) <= 5.
Proof. unfold Np.last5. rewrite length_skipn. lia. Qed.




End ReportShape.

Section ErrorPrefix.
Local Open Scope nat_scope.





End ErrorPrefix.

Section RankedLines.
Local Open Scope nat_scope.


End RankedLines.

(** * Facts about single-precision scores and their text *)

Section FloatText.
Local Open Scope Q_scope.

(** A finite float is printed as a numeral with one decimal digit. *)
Lemma f32_format_1f_finite (x : spec_float) :
  F32.is_finite x = true -> Fmt.one_decimal (F32.format_1f x) = true.
Proof.
  destruct x as [[]|[]| |s m e]; try discriminate; intros _; try reflexivity.
  apply one_decimal_format_1f.
Qed.

(** The others are printed as a word. *)
Lemma f32_format_1f_not_finite (x : spec_float) :
  F32.is_finite x = false ->
  F32.format_1f x = "nan" \/ F32.format_1f x = "inf" \/ F32.format_1f x = "-inf".
Proof.
  destruct x as [[]|[]| |s m e]; try discriminate; intros _; simpl; auto.
Qed.

Lemma f32_numeral_value (x : spec_float) :
  F32.is_finite x = true ->
  Fmt.numeral_value (F32.format_1f x) = Some (F32.printed_value x).
Proof.
  destruct x as [[]|[]| |s m e]; try discriminate; intros _; try reflexivity.
  apply numeral_value_format_1f.
Qed.

Lemma f32_printed_value_close (x : spec_float) :
  F32.is_finite x = true ->
  Qabs (F32.printed_value x - F32.value x) <= 1 # 20.
Proof.
  destruct x as [[]|[]| |s m e]; try discriminate; intros _;
    try (vm_compute; discriminate).
  apply printed_value_close.
Qed.

Lemma fmt_printed_value_0 : Fmt.printed_value 0 == 0.
Proof. reflexivity. Qed.

Lemma fmt_printed_value_100 : Fmt.printed_value 100 == 100.
Proof. reflexivity. Qed.

(** Rounding to one decimal does not leave the interval from 0 to 100. *)
Lemma f32_printed_value_range (x : spec_float) :
  0 <= F32.value x -> F32.value x <= 100 ->
  0 <= F32.printed_value x /\ F32.printed_value x <= 100.
Proof.
  destruct x as [[]|[]| |s m e]; intros H0 H1;
    try (split; vm_compute; discriminate).
  unfold F32.printed_value. split.
  - rewrite <- fmt_printed_value_0. now apply printed_value_mono.
  - rewrite <- fmt_printed_value_100. now apply printed_value_mono.
Qed.

End FloatText.

Section FloatOrder.

(** The keys of a vector are the keys of its entries. *)
Lemma key_score (a : list spec_float) (i : nat) :
  Np.score (map F32.key a) i = F32.key (Full.score a i).
Proof.
  unfold Np.score, Full.score.
  change 0%Q with (F32.key (S754_zero false)). apply map_nth.
Qed.

Lemma full_score_In (a : list spec_float) (i : nat) :
  (i < List.length a)%nat -> In (Full.score a i) a.
Proof. intros H. unfold Full.score. now apply nth_In. Qed.

Lemma full_unique_max (a : list spec_float) (r : nat) :
  Full.unique_max a r -> unique_max (map F32.key a) r.
Proof.
  intros H j Hj Hne. rewrite !key_score. apply H; auto.
  now rewrite length_map in Hj.
Qed.

End FloatOrder.

Section Lines.

Lemma no_line_feed_app (s t : string) :
  no_line_feed (s ++ t) = no_line_feed s && no_line_feed t.
Proof.
  induction s as [|c r IH]; simpl; [reflexivity|].
  now rewrite IH, andb_assoc.
Qed.

Lemma no_line_feed_digit (c : ascii) :
  Fmt.is_digit c = true -> Ascii.eqb c line_feed = false.
Proof.
  destruct c as [[] [] [] [] [] [] [] []]; try reflexivity; discriminate.
Qed.

Lemma no_line_feed_digits (s : string) :
  Fmt.all_digits s = true -> no_line_feed s = true.
Proof.
  induction s as [|c r IH]; simpl; [reflexivity|].
  intros H. apply andb_prop in H as [Hc Hr].
  now rewrite (no_line_feed_digit _ Hc), IH.
Qed.

Lemma no_line_feed_dec (n : N) : no_line_feed (Fmt.dec n) = true.
Proof. apply no_line_feed_digits, all_digits_dec. Qed.

Lemma no_line_feed_fmt_format_1f (x : Q) : no_line_feed (Fmt.format_1f x) = true.
Proof.
  unfold Fmt.format_1f.
  rewrite !no_line_feed_app, no_line_feed_dec.
  assert (Hd : no_line_feed
                 (String (Fmt.digit_char (Fmt.tenths x mod 10)) "") = true).
  { cbn [no_line_feed]. rewrite no_line_feed_digit; [reflexivity|].
    apply is_digit_digit_char. apply Z.mod_pos_bound. lia. }
  rewrite Hd. now destruct (Fmt.negative x).
Qed.

Lemma no_line_feed_format_1f (x : spec_float) :
  no_line_feed (F32.format_1f x) = true.
Proof.
  destruct x as [[]|[]| |s m e]; try reflexivity.
  apply no_line_feed_fmt_format_1f.
Qed.

Lemma no_line_feed_top_line (label : string) (x : spec_float) :
  no_line_feed label = true -> no_line_feed (Full.top_line label x) = true.
Proof.
  intros H. unfold Full.top_line.
  now rewrite !no_line_feed_app, H, no_line_feed_format_1f.
Qed.

Lemma no_line_feed_rank_line (i : nat) (label : string) (x : spec_float) :
  no_line_feed label = true -> no_line_feed (Full.rank_line i label x) = true.
Proof.
  intros H. unfold Full.rank_line.
  now rewrite !no_line_feed_app, H, no_line_feed_format_1f, no_line_feed_dec.
Qed.

(** A text without a line feed, printed, is one line. *)
Lemma lines_print (text rest : string) :
  no_line_feed text = true ->
  lines (text ++ String line_feed rest) = text :: lines rest.
Proof.
  induction text as [|c r IH]; simpl; intros H; [reflexivity|].
  apply andb_prop in H as [Hc Hr].
  destruct (Ascii.eqb c line_feed); [discriminate|].
  now rewrite (IH Hr).
Qed.

(** When no text printed holds a line feed, the lines of the output are
    the texts printed. *)
Lemma lines_written (out : stdout) :
  Forall (fun text => no_line_feed text = true) out ->
  lines (written out) = out.
Proof.
  induction 1 as [|text rest Ht _ IH]; simpl; [reflexivity|].
  now rewrite (lines_print _ _ Ht), IH.
Qed.

Lemma no_line_feed_nth (class_names : list string) (idx : nat) :
  Forall (fun label => no_line_feed label = true) class_names ->
  no_line_feed (nth idx class_names "") = true.
Proof.
  intros H. destruct (nth_in_or_default idx class_names "") as [Hin|E];
    [|now rewrite E].
  rewrite Forall_forall in H. now apply H.
Qed.

Lemma no_line_feed_ranked_lines (class_names : list string)
  (predictions : list spec_float) (indices : list nat) (i : nat) :
  Forall (fun label => no_line_feed label = true) class_names ->
  Forall (fun text => no_line_feed text = true)
         (Full.ranked_lines class_names predictions i indices).
Proof.
  intros H. revert i. induction indices as [|idx rest IH]; intros i; simpl;
    constructor; [|apply IH].
  now apply no_line_feed_rank_line, no_line_feed_nth.
Qed.

Lemma no_line_feed_report (class_names : list string)
  (predictions : list spec_float) (top_idx : nat) (indices : list nat) :
  Forall (fun label => no_line_feed label = true) class_names ->
  Forall (fun text => no_line_feed text = true)
         (Full.report class_names predictions top_idx indices).
Proof.
  intros H. unfold Full.report.
  constructor; [now apply no_line_feed_top_line, no_line_feed_nth|].
  constructor; [reflexivity|].
  now apply no_line_feed_ranked_lines.
Qed.

End Lines.

(** * Facts about runs of the script in full *)

Section FullRunFacts.
Local Open Scope nat_scope.

Lemma full_ndarray_getitem_ok (a : list spec_float) (i : nat) (out : stdout) :
  i < List.length a ->
  Full.ndarray_getitem a i out = (Returned (Full.score a i), out).
Proof.
  intros H. unfold Full.ndarray_getitem, Full.score.
  now rewrite (nth_error_nth_lt a i (S754_zero false) H).
Qed.

Lemma full_ndarray_getitem_inv (a : list spec_float) (i : nat)
  (out out' : stdout) (o : outcome spec_float) :
  Full.ndarray_getitem a i out = (o, out') ->
  out' = out
  /\ ((i < List.length a /\ o = Returned (Full.score a i))
      \/ (List.length a <= i /\ exists e, o = Raised e)).
Proof.
  unfold Full.ndarray_getitem, Full.score.
  destruct (nth_error a i) as [x|] eqn:E.
  - intros [= <- <-]. split; [reflexivity|left]. split.
    + apply nth_error_Some. congruence.
    + now rewrite (nth_error_nth _ _ (S754_zero false) E).
  - intros [= <- <-]. split; [reflexivity|right]. split; eauto.
    now apply nth_error_None.
Qed.

Lemma full_argmax_range (a : list spec_float) (r : nat) :
  Full.argmax a = Ok r -> r < List.length a.
Proof.
  intros H. destruct (argmax_first_max _ _ H) as (Hr & _).
  now rewrite length_map in Hr.
Qed.

Lemma full_argmax_nonempty (a : list spec_float) :
  a <> [] -> exists r, Full.argmax a = Ok r.
Proof.
  intros H. apply argmax_nonempty. now destruct a.
Qed.

Lemma full_ranked_lines_length (class_names : list string)
  (predictions : list spec_float) (indices : list nat) (i : nat) :
  List.length (Full.ranked_lines class_names predictions i indices)
  = List.length indices.
Proof.
  revert i. induction indices as [|idx rest IH]; intros i; simpl; auto.
Qed.

(** The loop prints one text per position when every lookup succeeds
    and standard output takes each text. *)
Lemma full_print_ranked_ok (w : Full.world) (class_names : list string)
  (predictions : list spec_float) (indices : list nat) (i : nat) (out : stdout) :
  Forall (fun idx => idx < List.length class_names
                     /\ idx < List.length predictions) indices ->
  Forall (fun text => Full.stdout_refuses w text = None)
         (Full.ranked_lines class_names predictions i indices) ->
  Full.print_ranked w class_names predictions i indices out
  = (Returned tt,
     (out ++ Full.ranked_lines class_names predictions i indices)%list).
Proof.
  intros H. revert i out.
  induction H as [|idx rest [Hl Hp] _ IH]; intros i out Htakes; simpl.
  - unfold ret. now rewrite app_nil_r.
  - simpl in Htakes. inversion Htakes as [|? ? Ht Hrest]; subst.
    unfold bind at 1. rewrite (list_getitem_ok _ _ "" _ Hl).
    unfold bind at 1. rewrite (full_ndarray_getitem_ok _ _ _ Hp).
    run_print_full Ht.
    rewrite (IH _ _ Hrest). now rewrite <- app_assoc.
Qed.

(** Up to the prediction vector, [predict_image] is the sequence of its
    library calls. *)
Lemma full_predict_image_reaches_ranking (w : Full.world) (image_path : string)
  (class_names : list string) (predictions : list spec_float) (out : stdout) :
  Full.reaches_ranking w image_path class_names predictions ->
  Full.predict_image w image_path out
  = Full.rank_and_print w class_names predictions out.
Proof.
  intros (infer & img & img_array & Hm & Hl & Hi & Hp & Hr).
  unfold Full.predict_image, Full.rank_and_print.
  run_call Hm.
  run_call Hl.
  rewrite Hi.
  run_call Hp.
  run_call Hr.
  reflexivity.
Qed.

Lemma full_rank_and_print_ok (w : Full.world) (class_names : list string)
  (predictions : list spec_float) (top_idx : nat) (out : stdout) :
  Full.argmax predictions = Ok top_idx ->
  top_idx < List.length class_names ->
  Forall (fun idx => idx < List.length class_names
                     /\ idx < List.length predictions)
         (Full.top_indices w predictions) ->
  Forall (fun text => Full.stdout_refuses w text = None)
         (Full.report class_names predictions top_idx
            (Full.top_indices w predictions)) ->
  Full.rank_and_print w class_names predictions out
  = (Returned tt,
     (out ++ Full.report class_names predictions top_idx
                         (Full.top_indices w predictions))%list).
Proof.
  intros Ha Hl Hall Htakes. unfold Full.rank_and_print.
  pose proof (full_argmax_range _ _ Ha) as Hp.
  unfold Full.report in Htakes.
  inversion Htakes as [|? ? Ht1 Htakes1]; subst.
  inversion Htakes1 as [|? ? Ht2 Htakes2]; subst.
  run_call Ha.
  unfold bind at 1. rewrite (list_getitem_ok _ _ "" _ Hl).
  unfold bind at 1. rewrite (full_ndarray_getitem_ok _ _ _ Hp).
  run_print_full Ht1.
  run_print_full Ht2.
  rewrite (full_print_ranked_ok _ _ _ _ _ _ Hall Htakes2).
  unfold Full.report. now rewrite <- !app_assoc.
Qed.

Lemma full_top_indices_covered (w : Full.world) (class_names : list string)
  (predictions : list spec_float) :
  Full.numpy_ok w ->
  List.length predictions <= List.length class_names ->
  Forall (fun idx => idx < List.length class_names
                     /\ idx < List.length predictions)
         (Full.top_indices w predictions).
Proof.
  intros Hnp Hlen. apply Forall_forall. intros idx Hin.
  pose proof (top_in_range _ _ (Hnp predictions) idx Hin) as H.
  rewrite length_map in H. lia.
Qed.

Lemma full_takes_all_Forall (w : Full.world) (texts : list string) :
  Full.stdout_takes_all w ->
  Forall (fun text => Full.stdout_refuses w text = None) texts.
Proof. intros H. apply Forall_forall. intros text _. apply H. Qed.

Lemma full_main_with_image (w : Full.world) (argv : list string)
  (image_path : string) (out : stdout) :
  nth_error argv 1 = Some image_path ->
  Full.main w argv out
  = try_except (Full.predict_image w image_path)
      (fun e => Full.print w ("Error: " ++ str e) ;; sys_exit 1) out.
Proof.
  intros H. unfold Full.main.
  assert (Hlen : (List.length argv <? 2) = false).
  { assert (1 < List.length argv) by (apply nth_error_Some; congruence).
    apply Nat.ltb_ge. lia. }
  rewrite Hlen. unfold try_except, bind at 1, list_getitem. rewrite H.
  reflexivity.
Qed.

(** With a label for every class and a standard output that takes every
    text, a non-empty prediction vector is reported in full. *)
Lemma full_run_report (w : Full.world) (argv : list string)
  (image_path : string) (class_names : list string)
  (predictions : list spec_float) (top_idx : nat) :
  Full.numpy_ok w ->
  Full.stdout_takes_all w ->
  nth_error argv 1 = Some image_path ->
  Full.reaches_ranking w image_path class_names predictions ->
  List.length predictions <= List.length class_names ->
  Full.argmax predictions = Ok top_idx ->
  Full.run w argv
  = (0%Z, Full.report class_names predictions top_idx
                      (Full.top_indices w predictions)).
Proof.
  intros Hnp Htakes Harg Hreach Hlen Ha. unfold Full.run.
  rewrite (full_main_with_image _ _ _ _ Harg). unfold try_except.
  rewrite (full_predict_image_reaches_ranking _ _ _ _ _ Hreach).
  pose proof (full_argmax_range _ _ Ha) as Hr.
  rewrite (full_rank_and_print_ok w class_names predictions top_idx []); auto.
  - lia.
  - now apply full_top_indices_covered.
  - now apply full_takes_all_Forall.
Qed.

End FullRunFacts.

Section FullRunInversion.
Local Open Scope nat_scope.

(** What one [print] can do. *)
Lemma full_print_inv (w : Full.world) (text : string) (out out' : stdout)
  (o : outcome unit) :
  Full.print w text out = (o, out') ->
  (Full.stdout_refuses w text = None /\ o = Returned tt
   /\ out' = (out ++ [text])%list)
  \/ (exists e, Full.stdout_refuses w text = Some e /\ o = Raised e
      /\ out' = out).
Proof.
  unfold Full.print. destruct (Full.stdout_refuses w text) as [e|].
  - intros [= <- <-]. right. eauto.
  - intros [= <- <-]. left. auto.
Qed.

(** The loop never leaves through [sys.exit]; what it adds to the output
    is an initial part of the numbered list, all of it when it
    returns. *)
Lemma full_print_ranked_inv (w : Full.world) (class_names : list string)
  (predictions : list spec_float) (indices : list nat) (i : nat)
  (out out' : stdout) (o : outcome unit) :
  Full.print_ranked w class_names predictions i indices out = (o, out') ->
  (o = Returned tt
   /\ out' = (out ++ Full.ranked_lines class_names predictions i indices)%list
   /\ Forall (fun idx => idx < List.length class_names
                         /\ idx < List.length predictions) indices
   /\ Forall (fun text => Full.stdout_refuses w text = None)
             (Full.ranked_lines class_names predictions i indices))
  \/ (exists e k, o = Raised e /\ k < List.length indices
      /\ out' = (out ++ firstn k (Full.ranked_lines class_names predictions
                                    i indices))%list).
Proof.
  revert i out. induction indices as [|idx rest IH]; intros i out; simpl.
  - intros [= <- <-]. left. rewrite app_nil_r. repeat split; constructor.
  - unfold bind at 1.
    destruct (list_getitem class_names idx out) as [o1 out1] eqn:E1.
    apply (list_getitem_inv _ _ "") in E1 as [-> [[Hl ->]|[Hl ->]]].
    2:{ intros [= <- <-]. right. exists (Exception "list index out of range"), 0.
        simpl. rewrite app_nil_r. repeat split; lia. }
    unfold bind at 1.
    destruct (Full.ndarray_getitem predictions idx out) as [o2 out2] eqn:E2.
    apply full_ndarray_getitem_inv in E2 as [-> [[Hp ->]|[Hp [e ->]]]].
    2:{ intros [= <- <-]. right. exists e, 0.
        simpl. rewrite app_nil_r. repeat split; lia. }
    unfold bind at 1.
    destruct (Full.print w _ out) as [o3 out3] eqn:E3.
    apply full_print_inv in E3 as [(Ht & -> & ->)|(e & Ht & -> & ->)].
    2:{ intros [= <- <-]. right. exists e, 0.
        simpl. rewrite app_nil_r. repeat split; lia. }
    intros H.
    apply IH in H as [(-> & -> & Hb & Hts)|(e & k & -> & Hk & ->)].
    + left. rewrite <- app_assoc. repeat split; auto.
    + right. exists e, (S k). rewrite <- app_assoc.
      repeat split; simpl; auto; lia.
Qed.

(** How lines 34 to 46 can end, from an empty output: with an exception
    before the first text, or with an initial part of the report. *)
Lemma full_rank_and_print_inv (w : Full.world) (class_names : list string)
  (predictions : list spec_float) (o : outcome unit) (out : stdout) :
  Full.rank_and_print w class_names predictions [] = (o, out) ->
  (exists e, o = Raised e /\ out = [])
  \/ (exists top_idx,
        Full.argmax predictions = Ok top_idx
        /\ top_idx < List.length class_names
        /\ ((o = Returned tt
             /\ out = Full.report class_names predictions top_idx
                        (Full.top_indices w predictions)
             /\ Forall (fun idx => idx < List.length class_names
                                   /\ idx < List.length predictions)
                       (Full.top_indices w predictions)
             /\ Forall (fun text => Full.stdout_refuses w text = None) out)
            \/ (exists e k,
                  o = Raised e
                  /\ k < List.length
                           (Full.report class_names predictions top_idx
                              (Full.top_indices w predictions))
                  /\ out = firstn k
                             (Full.report class_names predictions top_idx
                                (Full.top_indices w predictions))))).
Proof.
  unfold Full.rank_and_print. unfold bind at 1.
  destruct (Full.argmax predictions) as [top_idx|e] eqn:Ha; cbn [call ret raise].
  2:{ intros [= <- <-]. left. eauto. }
  unfold bind at 1.
  destruct (list_getitem class_names top_idx []) as [o1 out1] eqn:E1.
  apply (list_getitem_inv _ _ "") in E1 as [-> [[Hl ->]|[Hl ->]]].
  2:{ intros [= <- <-]. left. eauto. }
  unfold bind at 1.
  destruct (Full.ndarray_getitem predictions top_idx []) as [o2 out2] eqn:E2.
  apply full_ndarray_getitem_inv in E2 as [-> [[Hp ->]|[Hp [e ->]]]].
  2:{ intros [= <- <-]. left. eauto. }
  unfold bind at 1.
  destruct (Full.print w _ []) as [o3 out3] eqn:E3.
  apply full_print_inv in E3 as [(Ht1 & -> & ->)|(e & Ht1 & -> & ->)].
  2:{ intros [= <- <-]. left. eauto. }
  unfold bind at 1.
  destruct (Full.print w header_line _) as [o4 out4] eqn:E4.
  apply full_print_inv in E4 as [(Ht2 & -> & ->)|(e & Ht2 & -> & ->)].
  2:{ intros [= <- <-]. right. exists top_idx.
      split; [reflexivity|]. split; [exact Hl|]. right. exists e, 1.
      split; [reflexivity|]. split; [simpl; lia|reflexivity]. }
  intros H. right. exists top_idx.
  split; [reflexivity|]. split; [exact Hl|].
  apply full_print_ranked_inv in H as [(-> & -> & Hb & Hts)|(e & k & -> & Hk & ->)].
  - left. split; [reflexivity|]. split; [reflexivity|]. split; [exact Hb|].
    simpl. constructor; [exact Ht1|]. constructor; [exact Ht2|exact Hts].
  - right. exists e, (S (S k)). split; [reflexivity|].
    unfold Full.report. simpl.
    rewrite full_ranked_lines_length in *. split; [lia|reflexivity].
Qed.

Lemma full_run_success_inv (w : Full.world) (argv : list string)
  (image_path : string) (class_names : list string)
  (predictions : list spec_float) (out : stdout) :
  nth_error argv 1 = Some image_path ->
  Full.reaches_ranking w image_path class_names predictions ->
  Full.run w argv = (0%Z, out) ->
  exists top_idx,
    Full.argmax predictions = Ok top_idx
    /\ top_idx < List.length class_names
    /\ Forall (fun idx => idx < List.length class_names
                          /\ idx < List.length predictions)
              (Full.top_indices w predictions)
    /\ Forall (fun text => Full.stdout_refuses w text = None) out
    /\ out = Full.report class_names predictions top_idx
               (Full.top_indices w predictions).
Proof.
  intros Harg Hreach. unfold Full.run.
  rewrite (full_main_with_image _ _ _ _ Harg). unfold try_except.
  rewrite (full_predict_image_reaches_ranking _ _ _ _ _ Hreach).
  destruct (Full.rank_and_print w class_names predictions []) as [o out'] eqn:E.
  apply full_rank_and_print_inv in E
    as [(e & -> & ->)
       |(top_idx & Ha & Hl & [(-> & -> & Hb & Hts)|(e & k & -> & Hk & ->)])].
  - unfold bind, Full.print, sys_exit.
    destruct (Full.stdout_refuses w _); discriminate.
  - intros [= <-]. exists top_idx. auto.
  - unfold bind, Full.print, sys_exit.
    destruct (Full.stdout_refuses w _); discriminate.
Qed.

End FullRunInversion.

Section FullRunCases.
Local Open Scope nat_scope.

(** How [predict_image] can end before the ranking: an exception with
    nothing printed, the unreadable-image exit, or a prediction
    vector. *)
Lemma full_predict_image_cases (w : Full.world) (image_path : string) :
  (exists e, Full.predict_image w image_path [] = (Raised e, []))
  \/ Full.predict_image w image_path []
     = (Exited 1, ["Error: Could not read image"])
  \/ (exists class_names predictions,
        Full.reaches_ranking w image_path class_names predictions).
Proof.
  unfold Full.predict_image, Full.reaches_ranking.
  destruct (Full.saved_model_load w) as [infer|e] eqn:Hm.
  2:{ left. exists e. reflexivity. }
  destruct (Full.json_load w) as [class_names|e] eqn:Hl.
  2:{ left. exists e. reflexivity. }
  destruct (Full.cv2_imread w image_path) as [img|] eqn:Hi.
  2:{ cbv beta iota delta [bind call ret Full.print sys_exit].
      destruct (Full.stdout_refuses w "Error: Could not read image") as [e|].
      - left. exists e. reflexivity.
      - right. left. reflexivity. }
  destruct (Full.preprocess w img) as [img_array|e] eqn:Hp.
  2:{ left. exists e. reflexivity. }
  destruct (Full.run_inference w infer img_array) as [predictions|e] eqn:Hr.
  2:{ left. exists e. cbv beta iota delta [bind call ret]. now rewrite Hr. }
  right. right. exists class_names, predictions, infer, img, img_array. auto.
Qed.

Lemma full_run_without_image (w : Full.world) (argv : list string) :
  List.length argv < 2 ->
  Full.run w argv
  = match Full.stdout_refuses w "Error: No image path provided" with
    | None => (1%Z, ["Error: No image path provided"])
    | Some _ => (1%Z, [])
    end.
Proof.
  intros H. unfold Full.run, Full.main.
  apply Nat.ltb_lt in H. rewrite H.
  unfold bind, Full.print, sys_exit.
  now destruct (Full.stdout_refuses w _).
Qed.

(** An exception leaving [predict_image] ends the run with status 1; the
    handler's text follows what was printed, unless standard output
    refuses it. *)
Lemma full_run_raised (w : Full.world) (argv : list string)
  (image_path : string) (e : exn) (out : stdout) :
  nth_error argv 1 = Some image_path ->
  Full.predict_image w image_path [] = (Raised e, out) ->
  Full.run w argv
  = match Full.stdout_refuses w ("Error: " ++ str e) with
    | None => (1%Z, (out ++ [("Error: " ++ str e)%string])%list)
    | Some _ => (1%Z, out)
    end.
Proof.
  intros Harg H. unfold Full.run.
  rewrite (full_main_with_image _ _ _ _ Harg). unfold try_except. rewrite H.
  unfold bind, Full.print, sys_exit.
  now destruct (Full.stdout_refuses w _).
Qed.

Lemma full_run_exited (w : Full.world) (argv : list string)
  (image_path : string) (code : Z) (out : stdout) :
  nth_error argv 1 = Some image_path ->
  Full.predict_image w image_path [] = (Exited code, out) ->
  Full.run w argv = (code, out).
Proof.
  intros Harg H. unfold Full.run.
  rewrite (full_main_with_image _ _ _ _ Harg). unfold try_except. rewrite H.
  reflexivity.
Qed.

End FullRunCases.

Section FullPrintedTexts.
Local Open Scope nat_scope.

(** Whatever the loop prints is a ranked line of an entry of the
    prediction vector. *)
Lemma full_print_ranked_texts (w : Full.world) (class_names : list string)
  (predictions : list spec_float) (indices : list nat) (i : nat)
  (out out' : stdout) (o : outcome unit) :
  Full.print_ranked w class_names predictions i indices out = (o, out') ->
  exists added,
    out' = (out ++ added)%list
    /\ (forall code, o <> Exited code)
    /\ Forall (fun text => exists p, Full.percentage_line predictions text p)
              added.
Proof.
  revert i out. induction indices as [|idx rest IH]; intros i out; simpl.
  - intros [= <- <-]. exists []. rewrite app_nil_r.
    repeat split; [discriminate|constructor].
  - unfold bind at 1.
    destruct (list_getitem class_names idx out) as [o1 out1] eqn:E1.
    apply (list_getitem_inv _ _ "") in E1 as [-> [[Hl ->]|[Hl ->]]].
    2:{ intros [= <- <-]. exists []. rewrite app_nil_r.
        repeat split; [discriminate|constructor]. }
    unfold bind at 1.
    destruct (Full.ndarray_getitem predictions idx out) as [o2 out2] eqn:E2.
    apply full_ndarray_getitem_inv in E2 as [-> [[Hp ->]|[Hp [e ->]]]].
    2:{ intros [= <- <-]. exists []. rewrite app_nil_r.
        repeat split; [discriminate|constructor]. }
    unfold bind at 1.
    destruct (Full.print w _ out) as [o3 out3] eqn:E3.
    apply full_print_inv in E3 as [(Ht & -> & ->)|(e & Ht & -> & ->)].
    2:{ intros [= <- <-]. exists []. rewrite app_nil_r.
        repeat split; [discriminate|constructor]. }
    intros H.
    apply IH in H as (added & -> & Hex & Hall).
    exists (Full.rank_line i (nth idx class_names "")
              (F32.times_100 (Full.score predictions idx)) :: added).
    rewrite <- app_assoc. repeat split; auto.
    constructor; [|exact Hall].
    exists (Full.score predictions idx). split; [now apply full_score_In|].
    exists (nth idx class_names ""). right. now exists i.
Qed.

Lemma full_rank_and_print_texts (w : Full.world) (class_names : list string)
  (predictions : list spec_float) (out : stdout) (o : outcome unit) :
  Full.rank_and_print w class_names predictions [] = (o, out) ->
  (forall code, o <> Exited code)
  /\ Forall (fun text => text = header_line
                         \/ exists p, Full.percentage_line predictions text p)
            out.
Proof.
  unfold Full.rank_and_print. unfold bind at 1.
  destruct (Full.argmax predictions) as [top_idx|e] eqn:Ha; cbn [call ret raise].
  2:{ intros [= <- <-]. split; [discriminate|constructor]. }
  unfold bind at 1.
  destruct (list_getitem class_names top_idx []) as [o1 out1] eqn:E1.
  apply (list_getitem_inv _ _ "") in E1 as [-> [[Hl ->]|[Hl ->]]].
  2:{ intros [= <- <-]. split; [discriminate|constructor]. }
  unfold bind at 1.
  destruct (Full.ndarray_getitem predictions top_idx []) as [o2 out2] eqn:E2.
  apply full_ndarray_getitem_inv in E2 as [-> [[Hp ->]|[Hp [e ->]]]].
  2:{ intros [= <- <-]. split; [discriminate|constructor]. }
  assert (Htop : exists p,
             Full.percentage_line predictions
               (Full.top_line (nth top_idx class_names "")
                  (F32.times_100 (Full.score predictions top_idx))) p).
  { exists (Full.score predictions top_idx). split; [now apply full_score_In|].
    exists (nth top_idx class_names ""). now left. }
  unfold bind at 1.
  destruct (Full.print w _ []) as [o3 out3] eqn:E3.
  apply full_print_inv in E3 as [(Ht1 & -> & ->)|(e & Ht1 & -> & ->)].
  2:{ intros [= <- <-]. split; [discriminate|constructor]. }
  unfold bind at 1.
  destruct (Full.print w header_line _) as [o4 out4] eqn:E4.
  apply full_print_inv in E4 as [(Ht2 & -> & ->)|(e & Ht2 & -> & ->)].
  2:{ intros [= <- <-]. split; [discriminate|]. simpl.
      constructor; [now right|constructor]. }
  intros H. apply full_print_ranked_texts in H as (added & -> & Hex & Hall).
  split; [exact Hex|]. simpl.
  constructor; [now right|].
  constructor; [now left|].
  eapply Forall_impl; [|exact Hall]. intros text Htext. now right.
Qed.

End FullPrintedTexts.

Section FullConcreteWorlds.
Local Open Scope nat_scope.

Lemma full_fixed_world_numpy_ok (model : result unit)
  (labels : result (list string)) (image : option unit)
  (predictions : result (list spec_float)) (refuses : string -> option exn) :
  Full.numpy_ok (Full.fixed_world model labels image predictions refuses).
Proof. intros a. apply stable_argsort_ok. Qed.

Lemma full_healthy_world_reaches_ranking (labels : list string)
  (predictions : list spec_float) (image_path : string) :
  Full.reaches_ranking (Full.healthy_world labels predictions) image_path
    labels predictions.
Proof. exists tt, tt, tt. repeat split. Qed.


Lemma full_healthy_world_takes_all (labels : list string)
  (predictions : list spec_float) :
  Full.stdout_takes_all (Full.healthy_world labels predictions).
Proof. intros text. reflexivity. Qed.

End FullConcreteWorlds.

Section FullRunShape.
Local Open Scope nat_scope.

Lemma full_top_indices_at_most_5 (w : Full.world) (predictions : list spec_float) :
  List.length (Full.top_indices w predictions) <= 5.
Proof. unfold Full.top_indices. rewrite length_rev. apply last5_length. Qed.

Lemma full_report_length (w : Full.world) (class_names : list string)
  (predictions : list spec_float) (top_idx : nat) :
  List.length (Full.report class_names predictions top_idx
                 (Full.top_indices w predictions)) <= 7.
Proof.
  unfold Full.report. simpl. rewrite full_ranked_lines_length.
  pose proof (full_top_indices_at_most_5 w predictions). lia.
Qed.

(** Every run, by cases: an error message alone; nothing at all, when
    standard output refuses that message; the report; or an initial part
    of the report, followed by an error message unless standard output
    refuses it. *)
Lemma full_run_shape (w : Full.world) (argv : list string) :
  (exists msg, Full.run w argv = (1%Z, [("Error: " ++ msg)%string]))
  \/ (Full.run w argv = (1%Z, []) /\ ~ Full.stdout_takes_all w)
  \/ (exists image_path class_names predictions top_idx,
        nth_error argv 1 = Some image_path
        /\ Full.reaches_ranking w image_path class_names predictions
        /\ Full.argmax predictions = Ok top_idx
        /\ top_idx < List.length class_names
        /\ (Full.run w argv
            = (0%Z, Full.report class_names predictions top_idx
                      (Full.top_indices w predictions))
            \/ exists k,
                 k < List.length
                       (Full.report class_names predictions top_idx
                          (Full.top_indices w predictions))
                 /\ ((Full.run w argv
                      = (1%Z, firstn k
                                (Full.report class_names predictions top_idx
                                   (Full.top_indices w predictions)))
                      /\ ~ Full.stdout_takes_all w)
                     \/ exists msg,
                          Full.run w argv
                          = (1%Z,
                             (firstn k
                                (Full.report class_names predictions top_idx
                                   (Full.top_indices w predictions))
                              ++ [("Error: " ++ msg)%string])%list)))).
Proof.
  assert (Hrefused : forall text e,
            Full.stdout_refuses w text = Some e -> ~ Full.stdout_takes_all w).
  { intros text e H Htakes. rewrite Htakes in H. discriminate. }
  destruct (argv_cases argv) as [Hshort|[image_path Harg]].
  { rewrite (full_run_without_image _ _ Hshort).
    destruct (Full.stdout_refuses w _) eqn:Hr; [right; left; eauto|].
    left. now exists "No image path provided". }
  destruct (full_predict_image_cases w image_path)
    as [[e He]|[Hexit|(class_names & predictions & Hreach)]].
  - rewrite (full_run_raised _ _ _ _ _ Harg He).
    destruct (Full.stdout_refuses w _) eqn:Hr; [right; left; eauto|].
    left. now exists (str e).
  - left. exists "Could not read image".
    apply (full_run_exited _ _ _ _ _ Harg Hexit).
  - destruct (Full.rank_and_print w class_names predictions []) as [o out] eqn:E.
    pose proof (full_rank_and_print_inv _ _ _ _ _ E)
      as [(e & -> & ->)
         |(top_idx & Ha & Hl & [(-> & -> & _)|(e & k & -> & Hk & ->)])];
      rewrite <- (full_predict_image_reaches_ranking _ _ _ _ _ Hreach) in E.
    + rewrite (full_run_raised _ _ _ _ _ Harg E).
      destruct (Full.stdout_refuses w _) eqn:Hr; [right; left; eauto|].
      left. now exists (str e).
    + right; right. exists image_path, class_names, predictions, top_idx.
      repeat (split; [assumption|]). left.
      unfold Full.run. rewrite (full_main_with_image _ _ _ _ Harg).
      unfold try_except. now rewrite E.
    + right; right. exists image_path, class_names, predictions, top_idx.
      repeat (split; [assumption|]). right. exists k. split; [exact Hk|].
      rewrite (full_run_raised _ _ _ _ _ Harg E).
      destruct (Full.stdout_refuses w _) eqn:Hr; [left; eauto|].
      right. now exists (str e).
Qed.

End FullRunShape.

Section FullErrorPrefix.
Local Open Scope nat_scope.




End FullErrorPrefix.

(** * The single-precision product with 100 *)

(** [SFmul] rounds the exact product to the nearest float: it shifts the
    mantissa right until it fits ([shr_fexp]), keeping a round and a
    sticky bit, and rounds to even on them.  What follows bounds the
    result for a score between 0 and 1. *)

Section ShiftFacts.
Local Open Scope Z_scope.

Lemma iter_pos_nat {A} (f : A -> A) (p : positive) (x : A) :
  iter_pos f p x = Nat.iter (Pos.to_nat p) f x.
Proof.
  revert x. induction p as [p IH|p IH|]; intros x; simpl iter_pos.
  - rewrite !IH, Pos2Nat.inj_xI, Nat.iter_succ_r.
    replace (2 * Pos.to_nat p)%nat with (Pos.to_nat p + Pos.to_nat p)%nat by lia.
    now rewrite Nat.iter_add.
  - rewrite !IH, Pos2Nat.inj_xO.
    replace (2 * Pos.to_nat p)%nat with (Pos.to_nat p + Pos.to_nat p)%nat by lia.
    now rewrite Nat.iter_add.
  - reflexivity.
Qed.

Lemma shr_1_m (mrs : shr_record) :
  0 <= shr_m mrs -> shr_m (shr_1 mrs) = shr_m mrs / 2.
Proof.
  destruct mrs as [m r s]. cbn [shr_m]. intros H. rewrite <- Z.div2_div.
  destruct m as [|[p|p|]|p]; try reflexivity. lia.
Qed.

Lemma shr_1_exact (mrs : shr_record) :
  0 <= shr_m mrs -> shr_r mrs = false -> shr_s mrs = false ->
  (2 | shr_m mrs) ->
  shr_r (shr_1 mrs) = false /\ shr_s (shr_1 mrs) = false.
Proof.
  destruct mrs as [m r s]. cbn [shr_m shr_r shr_s]. intros H -> -> [q Hq].
  destruct m as [|[p|p|]|p]; simpl; auto; lia.
Qed.

Lemma shr_iter_m (n : nat) (mrs : shr_record) :
  0 <= shr_m mrs ->
  shr_m (Nat.iter n shr_1 mrs) = shr_m mrs / 2 ^ Z.of_nat n.
Proof.
  intros H. induction n as [|n IH].
  - simpl. now rewrite Z.div_1_r.
  - rewrite Nat.iter_succ, shr_1_m, IH.
    + rewrite Z.div_div by lia. f_equal.
      rewrite Nat2Z.inj_succ, Z.pow_succ_r by lia. lia.
    + rewrite IH. apply Z.div_pos; lia.
Qed.

Lemma shr_iter_exact (n : nat) (mrs : shr_record) :
  0 <= shr_m mrs -> shr_r mrs = false -> shr_s mrs = false ->
  (2 ^ Z.of_nat n | shr_m mrs) ->
  shr_r (Nat.iter n shr_1 mrs) = false /\ shr_s (Nat.iter n shr_1 mrs) = false.
Proof.
  intros H Hr Hs. induction n as [|n IH]; intros Hd.
  - simpl. auto.
  - rewrite Nat.iter_succ.
    rewrite Nat2Z.inj_succ, Z.pow_succ_r in Hd by lia.
    destruct Hd as [q Hq].
    destruct IH as [IHr IHs].
    { exists (q * 2). lia. }
    apply shr_1_exact; auto.
    + rewrite shr_iter_m by exact H. apply Z.div_pos; lia.
    + rewrite shr_iter_m by exact H. exists q.
      rewrite Hq. replace (q * (2 * 2 ^ Z.of_nat n)) with (q * 2 * 2 ^ Z.of_nat n) by lia.
      rewrite Z.div_mul by lia. lia.
Qed.

Lemma round_nearest_even_bounds (m : Z) (l : location) :
  m <= round_nearest_even m l <= m + 1.
Proof.
  destruct l as [|[]]; simpl; try lia. destruct (Z.even m); lia.
Qed.

Lemma digits2_pos_bounds (m : positive) :
  2 ^ (Zpos (digits2_pos m) - 1) <= Zpos m < 2 ^ Zpos (digits2_pos m).
Proof.
  induction m as [m IH|m IH|]; simpl digits2_pos.
  - rewrite Pos2Z.inj_succ.
    replace (Z.succ (Zpos (digits2_pos m)) - 1) with (Z.succ (Zpos (digits2_pos m) - 1)) by lia.
    rewrite !Z.pow_succ_r by lia. lia.
  - rewrite Pos2Z.inj_succ.
    replace (Z.succ (Zpos (digits2_pos m)) - 1) with (Z.succ (Zpos (digits2_pos m) - 1)) by lia.
    rewrite !Z.pow_succ_r by lia. lia.
  - simpl. lia.
Qed.

End ShiftFacts.

Section Product.
Local Open Scope Z_scope.

Lemma digits_at_most_100 (a : positive) (e : Z) :
  e <= 0 -> Zpos a <= 100 * 2 ^ (- e) -> Zpos (digits2_pos a) + e <= 7.
Proof.
  intros He H. pose proof (digits2_pos_bounds a) as [Hlo _].
  assert (Hlt : 2 ^ (Zpos (digits2_pos a) - 1) < 2 ^ (7 - e)).
  { replace (7 - e) with (7 + - e) by lia. rewrite Z.pow_add_r by lia.
    change (2 ^ 7) with 128.
    assert (0 < 2 ^ (- e)) by (apply Z.pow_pos_nonneg; lia). lia. }
  apply Z.pow_lt_mono_r_iff in Hlt; lia.
Qed.

Lemma shr_at_most_100 (a e : Z) (p : positive) :
  0 <= a -> e + Zpos p <= 0 -> a <= 100 * 2 ^ (- e) ->
  0 <= shr_m (iter_pos shr_1 p (Build_shr_record a false false))
    <= 100 * 2 ^ (- (e + Zpos p))
  /\ (shr_m (iter_pos shr_1 p (Build_shr_record a false false))
      = 100 * 2 ^ (- (e + Zpos p)) ->
      loc_of_shr_record (iter_pos shr_1 p (Build_shr_record a false false))
      = loc_Exact).
Proof.
  intros Ha He H.
  rewrite iter_pos_nat.
  assert (Hm : shr_m (Nat.iter (Pos.to_nat p) shr_1 (Build_shr_record a false false))
               = a / 2 ^ Zpos p).
  { rewrite shr_iter_m by exact Ha. now rewrite positive_nat_Z. }
  rewrite Hm.
  assert (Hpow : 2 ^ (- e) = 2 ^ (- (e + Zpos p)) * 2 ^ Zpos p).
  { rewrite <- Z.pow_add_r by lia. f_equal. lia. }
  assert (Hp : 0 < 2 ^ Zpos p) by (apply Z.pow_pos_nonneg; lia).
  set (K := 2 ^ (- (e + Zpos p))) in *.
  set (P := 2 ^ Zpos p) in *.
  rewrite Hpow in H.
  split; [split|].
  - apply Z.div_pos; lia.
  - apply Z.div_le_upper_bound; [lia|]. lia.
  - intros Heq.
    pose proof (Z.mul_div_le a P Hp) as Hle. rewrite Heq in Hle.
    assert (Hdiv : (2 ^ Z.of_nat (Pos.to_nat p) | a)).
    { rewrite positive_nat_Z. fold P. exists (100 * K). lia. }
    destruct (shr_iter_exact (Pos.to_nat p) (Build_shr_record a false false)
                Ha eq_refl eq_refl Hdiv) as [Hr Hs].
    destruct (Nat.iter (Pos.to_nat p) shr_1 (Build_shr_record a false false))
      as [m r s].
    cbn [shr_r shr_s] in Hr, Hs. now subst.
Qed.

Lemma shr_fexp_at_most_100 (a e : Z) (mrs : shr_record) (e' : Z) :
  0 <= a -> e <= -17 -> a <= 100 * 2 ^ (- e) ->
  shr_fexp 24 128 a e loc_Exact = (mrs, e') ->
  e' <= -17
  /\ 0 <= shr_m mrs <= 100 * 2 ^ (- e')
  /\ (shr_m mrs = 100 * 2 ^ (- e') -> loc_of_shr_record mrs = loc_Exact).
Proof.
  intros Ha He H. unfold shr_fexp, shr. cbn [shr_record_of_loc].
  assert (Hd : Zdigits2 a + e <= 7).
  { destruct a as [|q|q]; simpl Zdigits2; [lia| |lia].
    apply digits_at_most_100; [lia|exact H]. }
  assert (Hf : fexp 24 128 (Zdigits2 a + e) <= -17).
  { unfold fexp, emin. lia. }
  destruct (fexp 24 128 (Zdigits2 a + e) - e) as [|p|p] eqn:Hn.
  - intros [= <- <-]. cbn [shr_m]. repeat split; auto; lia.
  - intros [= <- <-].
    destruct (shr_at_most_100 a e p Ha ltac:(lia) H) as [Hb Hx].
    split; [lia|]. split; [exact Hb|exact Hx].
  - intros [= <- <-]. cbn [shr_m]. repeat split; auto; lia.
Qed.

Lemma binary_round_aux_at_most_100 (M : positive) (E : Z) :
  E <= -17 -> Zpos M <= 100 * 2 ^ (- E) ->
  binary_round_aux 24 128 false (Zpos M) E loc_Exact = S754_zero false
  \/ exists m e,
       binary_round_aux 24 128 false (Zpos M) E loc_Exact = S754_finite false m e
       /\ e <= -17 /\ Zpos m <= 100 * 2 ^ (- e).
Proof.
  intros HE H. unfold binary_round_aux.
  destruct (shr_fexp 24 128 (Zpos M) E loc_Exact) as [mrs1 e1] eqn:S1.
  destruct (shr_fexp_at_most_100 _ _ _ _ (Pos2Z.is_nonneg M) HE H S1) as (He1 & Hb1 & Hx1).
  pose proof (round_nearest_even_bounds (shr_m mrs1) (loc_of_shr_record mrs1)) as Hr.
  assert (Hb1' : 0 <= round_nearest_even (shr_m mrs1) (loc_of_shr_record mrs1)
                 <= 100 * 2 ^ (- e1)).
  { destruct (Z.eq_dec (shr_m mrs1) (100 * 2 ^ (- e1))) as [Heq|Hne].
    - rewrite (Hx1 Heq). cbn [round_nearest_even]. lia.
    - lia. }
  destruct (shr_fexp 24 128 _ e1 loc_Exact) as [mrs2 e2] eqn:S2.
  destruct (shr_fexp_at_most_100 _ _ _ _ (proj1 Hb1') He1 (proj2 Hb1') S2)
    as (He2 & Hb2 & _).
  destruct (shr_m mrs2) as [|m|m] eqn:Hm; [now left| |lia].
  right. exists m, e2.
  assert (Hle : (e2 <=? 128 - 24) = true) by (apply Z.leb_le; lia).
  rewrite Hle. repeat split; auto. lia.
Qed.

End Product.

Section ProductValue.

Lemma magnitude_pos (m : positive) (e : Z) : (0 < F32.magnitude m e)%Q.
Proof. destruct e; reflexivity. Qed.

Lemma magnitude_at_most_1 (m : positive) (e : Z) :
  (F32.magnitude m e <= 1)%Q -> (e <= 0 /\ Zpos m <= 2 ^ (- e))%Z.
Proof.
  destruct e as [|p|p]; unfold F32.magnitude, Qle; cbn [Qnum Qden]; intros H.
  - simpl. lia.
  - exfalso. rewrite Pos2Z.inj_mul, Pos2Z.inj_pow in H.
    assert (2 ^ 1 <= 2 ^ Zpos p)%Z by (apply Z.pow_le_mono_r; lia).
    change (2 ^ 1)%Z with 2%Z in *. nia.
  - split; [lia|]. rewrite Pos2Z.inj_pow in H. simpl Z.opp. lia.
Qed.

Lemma magnitude_at_most_100 (m : positive) (e : Z) :
  (e <= -17)%Z -> (Zpos m <= 100 * 2 ^ (- e))%Z ->
  (F32.magnitude m e <= 100)%Q.
Proof.
  destruct e as [|p|p]; try lia. intros _ H.
  unfold F32.magnitude, Qle. cbn [Qnum Qden].
  rewrite Pos2Z.inj_pow. simpl Z.opp in H. lia.
Qed.

(** A score between 0 and 1 times 100 lies between 0 and 100: the
    product is rounded, but 100 is a float, and rounding does not go past
    a float. *)
Lemma times_100_range (p : spec_float) :
  F32.is_finite p = true ->
  (0 <= F32.value p)%Q -> (F32.value p <= 1)%Q ->
  F32.is_finite (F32.times_100 p) = true
  /\ (0 <= F32.value (F32.times_100 p))%Q
  /\ (F32.value (F32.times_100 p) <= 100)%Q.
Proof.
  destruct p as [s|s| |s m e]; try discriminate; intros _ H0 H1.
  - destruct s; repeat split; discriminate.
  - destruct s.
    { exfalso. cbn [F32.value] in H0. pose proof (magnitude_pos m e). lra. }
    cbn [F32.value] in H1.
    apply magnitude_at_most_1 in H1 as [He Hm].
    unfold F32.times_100, F32.hundred, F32.prec, F32.emax, SFmul. cbn [xorb].
    destruct (binary_round_aux_at_most_100 (m * 13107200) (e + -17))
      as [->|(m' & e' & -> & He' & Hm')].
    + lia.
    + rewrite Pos2Z.inj_mul.
      replace (- (e + -17))%Z with (17 + - e)%Z by lia.
      rewrite Z.pow_add_r by lia. change (2 ^ 17)%Z with 131072%Z. lia.
    + repeat split; discriminate.
    + split; [reflexivity|]. cbn [F32.value]. split.
      * pose proof (magnitude_pos m' e'). lra.
      * now apply magnitude_at_most_100.
Qed.

End ProductValue.

(** * The claims *)

Local Open Scope nat_scope.

(** ** C1: the summary line against rank 1 *)

(** C1 (as amended).  For a label table and a non-empty prediction
    vector of the same length, on a standard output that takes every
    text, the run prints the full report.  The class at rank 1 holds a
    largest score, as the class of the "Top prediction:" line does; and
    when the largest score is attained at one position only, the two
    lines show the same position, and so the same label and the same
    percentage. *)
Theorem top_line_matches_rank_1 (w : Full.world) (argv : list string)
  (image_path : string) (class_names : list string)
  (predictions : list spec_float) :
  Full.numpy_ok w ->
  Full.stdout_takes_all w ->
  nth_error argv 1 = Some image_path ->
  Full.reaches_ranking w image_path class_names predictions ->
  List.length class_names = List.length predictions ->
  predictions <> [] ->
  exists top_idx idx1 rest,
    Full.argmax predictions = Ok top_idx
    /\ Full.top_indices w predictions = idx1 :: rest
    /\ Full.run w argv
       = (0%Z,
          Full.top_line (nth top_idx class_names "")
                        (F32.times_100 (Full.score predictions top_idx))
          :: header_line
          :: Full.rank_line 1 (nth idx1 class_names "")
                            (F32.times_100 (Full.score predictions idx1))
          :: Full.ranked_lines class_names predictions 2 rest)
    /\ Full.ties predictions idx1 top_idx
    /\ (Full.unique_max predictions top_idx ->
        idx1 = top_idx
        /\ nth idx1 class_names "" = nth top_idx class_names ""
        /\ F32.format_1f (F32.times_100 (Full.score predictions idx1))
           = F32.format_1f (F32.times_100 (Full.score predictions top_idx))).
Proof.
  intros Hnp Htakes Harg Hreach Hlen Hne.
  destruct (full_argmax_nonempty _ Hne) as [top_idx Ha].
  pose proof (argmax_first_max _ _ Ha) as Hfm.
  assert (Hne' : map F32.key predictions <> []) by (now destruct predictions).
  destruct (Full.top_indices w predictions) as [|idx1 rest] eqn:Htop.
  { exfalso. now apply (top_nonempty _ _ (Hnp predictions) Hne'). }
  exists top_idx, idx1, rest.
  split; [exact Ha|]. split; [reflexivity|]. split; [|split].
  - rewrite (full_run_report w argv image_path class_names predictions top_idx);
      auto; [|lia].
    now rewrite Htop.
  - unfold Full.ties. rewrite <- !key_score.
    exact (top_head_ties_argmax _ _ (Hnp predictions) _ _ _ Hfm Htop).
  - intros Huniq.
    assert (E : idx1 = top_idx).
    { apply full_unique_max in Huniq.
      exact (top_head_is_argmax _ _ (Hnp predictions) _ _ _ Hfm Htop Huniq). }
    now rewrite E.
Qed.

(** The theorem at [Full.clear_scores], where bibimbap is alone in
    front. *)
Lemma top_line_matches_rank_1_witness :
  exists top_idx idx1 rest,
    Full.argmax Full.clear_scores = Ok top_idx
    /\ Full.top_indices (Full.healthy_world menu Full.clear_scores)
         Full.clear_scores = idx1 :: rest
    /\ Full.run (Full.healthy_world menu Full.clear_scores) argv_with_image
       = (0%Z,
          Full.top_line (nth top_idx menu "")
                        (F32.times_100 (Full.score Full.clear_scores top_idx))
          :: header_line
          :: Full.rank_line 1 (nth idx1 menu "")
                            (F32.times_100 (Full.score Full.clear_scores idx1))
          :: Full.ranked_lines menu Full.clear_scores 2 rest)
    /\ Full.ties Full.clear_scores idx1 top_idx
    /\ (Full.unique_max Full.clear_scores top_idx ->
        idx1 = top_idx
        /\ nth idx1 menu "" = nth top_idx menu ""
        /\ F32.format_1f (F32.times_100 (Full.score Full.clear_scores idx1))
           = F32.format_1f (F32.times_100 (Full.score Full.clear_scores top_idx))).
Proof.
  apply (top_line_matches_rank_1 (Full.healthy_world menu Full.clear_scores)
           argv_with_image "dish.jpg" menu Full.clear_scores).
  - apply full_fixed_world_numpy_ok.
  - apply full_healthy_world_takes_all.
  - reflexivity.
  - apply full_healthy_world_reaches_ranking.
  - reflexivity.
  - discriminate.
Defined.

(** Against C1 as stated: with apple_pie and bibimbap tied at 0.5,
    [argmax] keeps the first of the two and the reversed ascending sort
    puts the last of them at rank 1, so the summary line names apple_pie
    and rank 1 names bibimbap.  And with the scores 0.0 and -0.0, which
    compare equal, the two lines differ in the percentage as well. *)
Lemma tied_scores_split_top_and_rank_1 :
  Full.numpy_ok (Full.healthy_world menu Full.tied_scores)
  /\ Full.stdout_takes_all (Full.healthy_world menu Full.tied_scores)
  /\ Full.reaches_ranking (Full.healthy_world menu Full.tied_scores) "dish.jpg"
       menu Full.tied_scores
  /\ List.length menu = List.length Full.tied_scores
  /\ Full.run (Full.healthy_world menu Full.tied_scores) argv_with_image
     = (0%Z,
        [ "Top prediction: apple_pie (50.0%)";
          "All predictions:";
          "1. bibimbap: 50.0%";
          "2. apple_pie: 50.0%";
          "3. edamame: 0.0%";
          "4. donuts: 0.0%";
          "5. cannoli: 0.0%" ])
  /\ Full.reaches_ranking (Full.healthy_world menu Full.zero_scores) "dish.jpg"
       menu Full.zero_scores
  /\ List.length menu = List.length Full.zero_scores
  /\ Full.run (Full.healthy_world menu Full.zero_scores) argv_with_image
     = (0%Z,
        [ "Top prediction: apple_pie (0.0%)";
          "All predictions:";
          "1. edamame: -0.0%";
          "2. apple_pie: 0.0%";
          "3. donuts: -100.0%";
          "4. cannoli: -100.0%";
          "5. bibimbap: -100.0%" ]).
Proof.
  split; [apply full_fixed_world_numpy_ok|].
  split; [apply full_healthy_world_takes_all|].
  split; [apply full_healthy_world_reaches_ranking|].
  split; [reflexivity|].
  split; [vm_compute; reflexivity|].
  split; [apply full_healthy_world_reaches_ranking|].
  split; [reflexivity|].
  vm_compute; reflexivity.
Qed.

(** ** C2: the seven lines of a successful run *)

(** C2 (as amended).  A successful run on a prediction vector with at
    least five entries, under a label table whose labels hold no line
    feed, writes exactly seven lines: the summary line, the header, and
    the lines of ranks 1 to 5, each with a label and with a float shown
    by ['.1f'] and followed by a percent sign. *)
Theorem successful_run_prints_seven_lines (w : Full.world) (argv : list string)
  (image_path : string) (class_names : list string)
  (predictions : list spec_float) (out : stdout) :
  Full.numpy_ok w ->
  nth_error argv 1 = Some image_path ->
  Full.reaches_ranking w image_path class_names predictions ->
  5 <= List.length predictions ->
  Forall (fun label => no_line_feed label = true) class_names ->
  Full.run w argv = (0%Z, out) ->
  exists label0 x0 label1 x1 label2 x2 label3 x3 label4 x4 label5 x5,
    lines (written out)
    = [ Full.top_line label0 x0;
        header_line;
        Full.rank_line 1 label1 x1;
        Full.rank_line 2 label2 x2;
        Full.rank_line 3 label3 x3;
        Full.rank_line 4 label4 x4;
        Full.rank_line 5 label5 x5 ]
    /\ lines (written out) = out.
Proof.
  intros Hnp Harg Hreach Hfive Hlabels Hrun.
  destruct (full_run_success_inv _ _ _ _ _ _ Harg Hreach Hrun)
    as (top_idx & Ha & _ & _ & _ & ->).
  pose proof (top_length _ _ (Hnp predictions)) as Hlen.
  fold (Full.top_indices w predictions) in Hlen.
  rewrite length_map, Nat.min_l in Hlen by exact Hfive.
  rewrite (lines_written _ (no_line_feed_report _ predictions top_idx _ Hlabels)).
  destruct (Full.top_indices w predictions)
    as [|i1 [|i2 [|i3 [|i4 [|i5 [|i6 t]]]]]]; try discriminate.
  unfold Full.report. simpl.
  do 12 eexists. split; reflexivity.
Qed.

(** The theorem at the report for [Full.clear_scores]. *)
Lemma successful_run_prints_seven_lines_witness :
  exists label0 x0 label1 x1 label2 x2 label3 x3 label4 x4 label5 x5,
    lines (written
             [ "Top prediction: bibimbap (50.0%)";
               "All predictions:";
               "1. bibimbap: 50.0%";
               "2. cannoli: 25.0%";
               "3. apple_pie: 12.5%";
               "4. edamame: 6.2%";
               "5. donuts: 6.2%" ])
    = [ Full.top_line label0 x0;
        header_line;
        Full.rank_line 1 label1 x1;
        Full.rank_line 2 label2 x2;
        Full.rank_line 3 label3 x3;
        Full.rank_line 4 label4 x4;
        Full.rank_line 5 label5 x5 ]
    /\ lines (written
                [ "Top prediction: bibimbap (50.0%)";
                  "All predictions:";
                  "1. bibimbap: 50.0%";
                  "2. cannoli: 25.0%";
                  "3. apple_pie: 12.5%";
                  "4. edamame: 6.2%";
                  "5. donuts: 6.2%" ])
       = [ "Top prediction: bibimbap (50.0%)";
           "All predictions:";
           "1. bibimbap: 50.0%";
           "2. cannoli: 25.0%";
           "3. apple_pie: 12.5%";
           "4. edamame: 6.2%";
           "5. donuts: 6.2%" ].
Proof.
  apply (successful_run_prints_seven_lines
           (Full.healthy_world menu Full.clear_scores)
           argv_with_image "dish.jpg" menu Full.clear_scores).
  - apply full_fixed_world_numpy_ok.
  - reflexivity.
  - apply full_healthy_world_reaches_ranking.
  - simpl. lia.
  - repeat constructor.
  - vm_compute. reflexivity.
Defined.

(** Against C2 as stated: a model with two classes gives a successful
    run of four lines. *)
Lemma two_classes_print_four_lines :
  Full.numpy_ok (Full.healthy_world short_menu Full.short_scores)
  /\ Full.reaches_ranking (Full.healthy_world short_menu Full.short_scores)
       "dish.jpg" short_menu Full.short_scores
  /\ Full.run (Full.healthy_world short_menu Full.short_scores) argv_with_image
     = (0%Z,
        [ "Top prediction: apple_pie (75.0%)";
          "All predictions:";
          "1. apple_pie: 75.0%";
          "2. bibimbap: 25.0%" ])
  /\ lines (written
              (snd (Full.run (Full.healthy_world short_menu Full.short_scores)
                      argv_with_image)))
     = [ "Top prediction: apple_pie (75.0%)";
         "All predictions:";
         "1. apple_pie: 75.0%";
         "2. bibimbap: 25.0%" ].
Proof.
  split; [apply full_fixed_world_numpy_ok|].
  split; [apply full_healthy_world_reaches_ranking|].
  split; vm_compute; reflexivity.
Qed.

(** A label that holds a line feed: the seven texts of a successful run
    are then eight lines. *)
Example label_with_line_feed_adds_a_line :
  List.length
    (lines (written
       (snd (Full.run
               (Full.healthy_world
                  ["apple_pie"; String "b" (String line_feed "b");
                   "cannoli"; "donuts"; "edamame"]
                  Full.logit_scores)
               argv_with_image))))
  = 8.
Proof. vm_compute. reflexivity. Qed.

(** ** C3: full report or a single error message *)




(** The same happens under a full label table when standard output
    cannot take a label: here the second of two labels on a console
    that takes ASCII only.  Rank 1 is printed, the [print] of rank 2
    raises, and the handler reports it. *)
Example refused_label_leaves_partial_report :
  Full.numpy_ok
    (Full.fixed_world (Ok tt) (Ok Full.accented_menu) (Some tt)
       (Ok Full.short_scores) Full.ascii_only)
  /\ Full.labels_cover
       (Full.fixed_world (Ok tt) (Ok Full.accented_menu) (Some tt)
          (Ok Full.short_scores) Full.ascii_only)
  /\ Full.run
       (Full.fixed_world (Ok tt) (Ok Full.accented_menu) (Some tt)
          (Ok Full.short_scores) Full.ascii_only)
       argv_with_image
     = (1%Z,
        [ "Top prediction: apple_pie (75.0%)";
          "All predictions:";
          "1. apple_pie: 75.0%";
          "Error: 'ascii' codec can't encode character" ]).
Proof.
  split; [apply full_fixed_world_numpy_ok|].
  split.
  - intros class_names infer img_array preds. simpl.
    intros [= <-] [= <-]. simpl. lia.
  - vm_compute. reflexivity.
Qed.

(** ** C4: the percentages *)

(** C4 (as amended).  Every text a run prints is an error message, the
    header, or a line showing an entry [p] of the prediction vector as a
    percentage: the single-precision product [p * 100] under ['.1f'].
    When that product is NaN or an infinity the text is [nan], [inf] or
    [-inf].  Otherwise it is a numeral with exactly one digit after the
    decimal point, which denotes a number within 0.05 of the product,
    and so a number between 0 and 100 when the product lies between 0
    and 100; and the product of a score between 0 and 1 does lie between
    0 and 100. *)
Theorem printed_percentages_have_one_decimal (w : Full.world)
  (argv : list string) (text : string) :
  In text (snd (Full.run w argv)) ->
  error_line text
  \/ text = header_line
  \/ exists image_path class_names predictions p,
       nth_error argv 1 = Some image_path
       /\ Full.reaches_ranking w image_path class_names predictions
       /\ Full.percentage_line predictions text p
       /\ (F32.is_finite (F32.times_100 p) = false ->
           F32.format_1f (F32.times_100 p) = "nan"
           \/ F32.format_1f (F32.times_100 p) = "inf"
           \/ F32.format_1f (F32.times_100 p) = "-inf")
       /\ (F32.is_finite (F32.times_100 p) = true ->
           Fmt.one_decimal (F32.format_1f (F32.times_100 p)) = true
           /\ Fmt.numeral_value (F32.format_1f (F32.times_100 p))
              = Some (F32.printed_value (F32.times_100 p))
           /\ (Qabs (F32.printed_value (F32.times_100 p)
                     - F32.value (F32.times_100 p)) <= 1 # 20)%Q
           /\ ((0 <= F32.value (F32.times_100 p))%Q ->
               (F32.value (F32.times_100 p) <= 100)%Q ->
               (0 <= F32.printed_value (F32.times_100 p))%Q
               /\ (F32.printed_value (F32.times_100 p) <= 100)%Q))
       /\ (F32.is_finite p = true ->
           (0 <= F32.value p)%Q -> (F32.value p <= 1)%Q ->
           F32.is_finite (F32.times_100 p) = true
           /\ (0 <= F32.printed_value (F32.times_100 p))%Q
           /\ (F32.printed_value (F32.times_100 p) <= 100)%Q).
Proof.
  assert (Hkind : forall image_path class_names predictions l,
            nth_error argv 1 = Some image_path ->
            Full.reaches_ranking w image_path class_names predictions ->
            l = header_line
            \/ (exists p, Full.percentage_line predictions l p) ->
            error_line l \/ l = header_line
            \/ exists image_path class_names predictions p,
                 nth_error argv 1 = Some image_path
                 /\ Full.reaches_ranking w image_path class_names predictions
                 /\ Full.percentage_line predictions l p
                 /\ (F32.is_finite (F32.times_100 p) = false ->
                     F32.format_1f (F32.times_100 p) = "nan"
                     \/ F32.format_1f (F32.times_100 p) = "inf"
                     \/ F32.format_1f (F32.times_100 p) = "-inf")
                 /\ (F32.is_finite (F32.times_100 p) = true ->
                     Fmt.one_decimal (F32.format_1f (F32.times_100 p)) = true
                     /\ Fmt.numeral_value (F32.format_1f (F32.times_100 p))
                        = Some (F32.printed_value (F32.times_100 p))
                     /\ (Qabs (F32.printed_value (F32.times_100 p)
                               - F32.value (F32.times_100 p)) <= 1 # 20)%Q
                     /\ ((0 <= F32.value (F32.times_100 p))%Q ->
                         (F32.value (F32.times_100 p) <= 100)%Q ->
                         (0 <= F32.printed_value (F32.times_100 p))%Q
                         /\ (F32.printed_value (F32.times_100 p) <= 100)%Q))
                 /\ (F32.is_finite p = true ->
                     (0 <= F32.value p)%Q -> (F32.value p <= 1)%Q ->
                     F32.is_finite (F32.times_100 p) = true
                     /\ (0 <= F32.printed_value (F32.times_100 p))%Q
                     /\ (F32.printed_value (F32.times_100 p) <= 100)%Q)).
  { intros image_path class_names predictions l Harg Hreach [->|[p Hp]];
      [now right; left|].
    right; right. exists image_path, class_names, predictions, p.
    split; [exact Harg|]. split; [exact Hreach|]. split; [exact Hp|].
    split; [apply f32_format_1f_not_finite|]. split.
    - intros Hfin.
      split; [now apply f32_format_1f_finite|].
      split; [now apply f32_numeral_value|].
      split; [now apply f32_printed_value_close|].
      apply f32_printed_value_range.
    - intros Hp0 Hlo Hhi.
      destruct (times_100_range p Hp0 Hlo Hhi) as (Hfin & H0 & H100).
      split; [exact Hfin|]. now apply f32_printed_value_range. }
  destruct (argv_cases argv) as [Hshort|[image_path Harg]].
  { rewrite (full_run_without_image _ _ Hshort).
    destruct (Full.stdout_refuses w _); simpl; [intros []|].
    intros [<-|[]]. left. now exists "No image path provided". }
  assert (Hraised : forall e out,
            Full.predict_image w image_path [] = (Raised e, out) ->
            In text (snd (Full.run w argv)) ->
            In text out \/ error_line text).
  { intros e out E. rewrite (full_run_raised _ _ _ _ _ Harg E).
    destruct (Full.stdout_refuses w _); cbn [snd]; [now left|].
    intros Hin. apply in_app_or in Hin as [Hin|[<-|[]]]; [now left|].
    right. now exists (str e). }
  destruct (full_predict_image_cases w image_path)
    as [[e He]|[Hexit|(class_names & predictions & Hreach)]].
  - intros Hin. destruct (Hraised _ _ He Hin) as [[]|Herr]. now left.
  - rewrite (full_run_exited _ _ _ _ _ Harg Hexit). simpl.
    intros [<-|[]]. left. now exists "Could not read image".
  - destruct (Full.rank_and_print w class_names predictions []) as [o out] eqn:E.
    pose proof (full_rank_and_print_texts _ _ _ _ _ E) as [Hex Hall].
    rewrite Forall_forall in Hall.
    rewrite <- (full_predict_image_reaches_ranking _ _ _ _ _ Hreach) in E.
    destruct o as [[]|e|code]; [| |now destruct (Hex code)].
    + unfold Full.run. rewrite (full_main_with_image _ _ _ _ Harg).
      unfold try_except. rewrite E. simpl. intros Hin.
      apply (Hkind image_path class_names predictions); auto.
    + intros Hin. destruct (Hraised _ _ E Hin) as [Hin'|Herr]; [|now left].
      apply (Hkind image_path class_names predictions); auto.
Qed.

(** The theorem at the third ranked line of the report for
    [Full.clear_scores]. *)
Lemma printed_percentages_have_one_decimal_witness :
  error_line "3. apple_pie: 12.5%"
  \/ "3. apple_pie: 12.5%" = header_line
  \/ exists image_path class_names predictions p,
       nth_error argv_with_image 1 = Some image_path
       /\ Full.reaches_ranking (Full.healthy_world menu Full.clear_scores)
            image_path class_names predictions
       /\ Full.percentage_line predictions "3. apple_pie: 12.5%" p
       /\ (F32.is_finite (F32.times_100 p) = false ->
           F32.format_1f (F32.times_100 p) = "nan"
           \/ F32.format_1f (F32.times_100 p) = "inf"
           \/ F32.format_1f (F32.times_100 p) = "-inf")
       /\ (F32.is_finite (F32.times_100 p) = true ->
           Fmt.one_decimal (F32.format_1f (F32.times_100 p)) = true
           /\ Fmt.numeral_value (F32.format_1f (F32.times_100 p))
              = Some (F32.printed_value (F32.times_100 p))
           /\ (Qabs (F32.printed_value (F32.times_100 p)
                     - F32.value (F32.times_100 p)) <= 1 # 20)%Q
           /\ ((0 <= F32.value (F32.times_100 p))%Q ->
               (F32.value (F32.times_100 p) <= 100)%Q ->
               (0 <= F32.printed_value (F32.times_100 p))%Q
               /\ (F32.printed_value (F32.times_100 p) <= 100)%Q))
       /\ (F32.is_finite p = true ->
           (0 <= F32.value p)%Q -> (F32.value p <= 1)%Q ->
           F32.is_finite (F32.times_100 p) = true
           /\ (0 <= F32.printed_value (F32.times_100 p))%Q
           /\ (F32.printed_value (F32.times_100 p) <= 100)%Q).
Proof.
  apply (printed_percentages_have_one_decimal
           (Full.healthy_world menu Full.clear_scores)
           argv_with_image "3. apple_pie: 12.5%").
  vm_compute. tauto.
Defined.

(** Against C4 as stated: a model that emits logits.  The script applies
    no softmax and no clamping, so a score of 2 is shown as 200.0% and a
    score of -2 as -200.0%. *)
Lemma logits_print_percentages_outside_0_100 :
  Full.run (Full.healthy_world menu Full.logit_scores) argv_with_image
  = (0%Z,
     [ "Top prediction: apple_pie (200.0%)";
       "All predictions:";
       "1. apple_pie: 200.0%";
       "2. bibimbap: 100.0%";
       "3. cannoli: 0.0%";
       "4. donuts: -100.0%";
       "5. edamame: -200.0%" ])
  /\ Full.top_line "apple_pie" (F32.times_100 (F32.make 2 0))
     = "Top prediction: apple_pie (200.0%)"
  /\ Fmt.numeral_value "200.0"
     = Some (F32.printed_value (F32.times_100 (F32.make 2 0)))
  /\ ~ (F32.printed_value (F32.times_100 (F32.make 2 0)) <= 100)%Q
  /\ Full.rank_line 5 "edamame" (F32.times_100 (F32.make (-2) 0))
     = "5. edamame: -200.0%"
  /\ Fmt.numeral_value "-200.0"
     = Some (F32.printed_value (F32.times_100 (F32.make (-2) 0)))
  /\ ~ (0 <= F32.printed_value (F32.times_100 (F32.make (-2) 0)))%Q.
Proof.
  repeat split; try (vm_compute; reflexivity);
    vm_compute; intros H; apply H; reflexivity.
Qed.

(** Nor is every percentage a numeral: the score nearest to 3e37
    overflows when multiplied by 100 and is shown as [inf%], and a NaN
    is shown as [nan%].  And the score nearest to 0.0075 is shown as
    0.8%: its product with 100 rounds to 0.75 in single precision. *)
Example wild_scores_print_nan_and_inf :
  Full.run (Full.healthy_world ["apple_pie"; "bibimbap"; "cannoli"]
              Full.wild_scores) argv_with_image
  = (0%Z,
     [ "Top prediction: cannoli (nan%)";
       "All predictions:";
       "1. cannoli: nan%";
       "2. bibimbap: inf%";
       "3. apple_pie: 0.8%" ]).
Proof. vm_compute. reflexivity. Qed.

(** ** C5: label lookups stay in bounds *)



(** ** C6: the ranking is in descending order and holds the largest *)




(** ** C7: no image path *)

(** C7.  Without an image path on the command line the script prints
    the one line [Error: No image path provided] and exits with status
    1, whatever the state of the model, the label file or the disk. *)
Theorem missing_argument_exits_1 (w : world) (argv : list string) :
  List.length argv < 2 ->
  run w argv = (1%Z, ["Error: No image path provided"]).
Proof. exact (run_without_image w argv). Qed.

(** The theorem at a command line that holds the script name only. *)
Lemma missing_argument_exits_1_witness :
  run (healthy_world menu clear_scores) ["predict_spring.py"]
  = (1%Z, ["Error: No image path provided"]).
Proof.
  apply (missing_argument_exits_1 (healthy_world menu clear_scores)
           ["predict_spring.py"]).
  simpl. lia.
Defined.

(** ** C8: an image that cannot be read *)




(** ** C9: every other failure *)

(** C9.  An exception [e] raised anywhere in [predict_image] is caught
    by the handler of the main block: the script prints [Error: ]
    followed by [str(e)], after whatever it had printed before, and exits
    with status 1.  In particular a model that does not load, a label
    file that does not load, a failure of preprocessing or of inference,
    and an empty prediction vector each give that one line and nothing
    else. *)
Theorem pipeline_exception_is_reported (w : world) (argv : list string)
  (image_path : string) :
  nth_error argv 1 = Some image_path ->
  (forall e out,
     predict_image w image_path [] = (Raised e, out) ->
     run w argv = (1%Z, (out ++ [("Error: " ++ str e)%string])%list))
  /\ (forall e,
        saved_model_load w = Fail e ->
        run w argv = (1%Z, ["Error: " ++ str e]))
  /\ (forall infer e,
        saved_model_load w = Ok infer ->
        json_load w = Fail e ->
        run w argv = (1%Z, ["Error: " ++ str e]))
  /\ (forall infer class_names img e,
        saved_model_load w = Ok infer ->
        json_load w = Ok class_names ->
        cv2_imread w image_path = Some img ->
        preprocess w img = Fail e ->
        run w argv = (1%Z, ["Error: " ++ str e]))
  /\ (forall infer class_names img img_array e,
        saved_model_load w = Ok infer ->
        json_load w = Ok class_names ->
        cv2_imread w image_path = Some img ->
        preprocess w img = Ok img_array ->
        run_inference w infer img_array = Fail e ->
        run w argv = (1%Z, ["Error: " ++ str e]))
  /\ (forall class_names,
        reaches_ranking w image_path class_names [] ->
        run w argv
        = (1%Z, ["Error: attempt to get argmax of an empty sequence"])).
Proof.
  intros Harg.
  assert (Hgen : forall e out,
             predict_image w image_path [] = (Raised e, out) ->
             run w argv = (1%Z, (out ++ [("Error: " ++ str e)%string])%list))
    by (intros e out; apply run_raised; exact Harg).
  split; [exact Hgen|].
  repeat split.
  - intros e Hm. apply (Hgen e []).
    unfold predict_image. unfold bind at 1. now rewrite Hm.
  - intros infer e Hm Hl. apply (Hgen e []).
    unfold predict_image. run_call Hm.
    unfold bind at 1. now rewrite Hl.
  - intros infer class_names img e Hm Hl Hi Hp. apply (Hgen e []).
    unfold predict_image. run_call Hm.
    run_call Hl. rewrite Hi.
    unfold bind at 1. now rewrite Hp.
  - intros infer class_names img img_array e Hm Hl Hi Hp Hr. apply (Hgen e []).
    unfold predict_image. run_call Hm.
    run_call Hl. rewrite Hi.
    run_call Hp.
    unfold bind at 1. now rewrite Hr.
  - intros class_names Hreach.
    apply (Hgen (Exception "attempt to get argmax of an empty sequence") []).
    rewrite (predict_image_reaches_ranking _ _ _ _ _ Hreach).
    apply rank_and_print_empty.
Qed.

(** The theorem at an installation whose model directory is missing. *)
Lemma pipeline_exception_is_reported_witness :
  run (fixed_world (Fail (Exception "SavedModel file does not exist at: saved_model"))
         (Ok menu) (Some tt) (Ok clear_scores))
      argv_with_image
  = (1%Z, ["Error: SavedModel file does not exist at: saved_model"]).
Proof.
  apply (proj1 (proj2
           (pipeline_exception_is_reported
              (fixed_world
                 (Fail (Exception "SavedModel file does not exist at: saved_model"))
                 (Ok menu) (Some tt) (Ok clear_scores))
              argv_with_image "dish.jpg" eq_refl))
           (Exception "SavedModel file does not exist at: saved_model")).
  reflexivity.
Defined.

(** ** C10: fewer than five classes *)



(** * Further properties of the script *)

Local Open Scope nat_scope.

(** X1.  Whatever the model, the label file, the image and standard
    output do, a run prints at most seven texts; and when none of them
    holds a line feed, what it writes is at most seven lines. *)
Theorem run_prints_at_most_7_texts (w : Full.world) (argv : list string) :
  List.length (snd (Full.run w argv)) <= 7
  /\ (Forall (fun text => no_line_feed text = true) (snd (Full.run w argv)) ->
      List.length (lines (written (snd (Full.run w argv)))) <= 7).
Proof.
  assert (H : List.length (snd (Full.run w argv)) <= 7).
  { destruct (full_run_shape w argv)
      as [[msg E]|[[E _]|(p & labels & preds & r & _ & _ & _ & _
                          & [E|(k & Hk & [[E _]|[msg E]])])]];
      rewrite E; cbn [snd]; try (simpl; lia);
      pose proof (full_report_length w labels preds r) as H7; try lia.
    - rewrite length_firstn. lia.
    - rewrite length_app, length_firstn. simpl. lia. }
  split; [exact H|].
  intros Hlf. now rewrite (lines_written _ Hlf).
Qed.






(** X5.  The class of the summary line is one of the ranked classes, or
    else the score of every ranked class compares equal to its score.
    With at most five classes the first case always holds. *)
Theorem top_class_is_ranked_or_all_tie (w : Full.world)
  (predictions : list spec_float) (top_idx : nat) :
  Full.numpy_ok w ->
  Full.argmax predictions = Ok top_idx ->
  (In top_idx (Full.top_indices w predictions)
   \/ Forall (fun idx => Full.ties predictions idx top_idx)
             (Full.top_indices w predictions))
  /\ (List.length predictions <= 5 ->
      In top_idx (Full.top_indices w predictions)).
Proof.
  intros Hnp Ha.
  pose proof (Hnp predictions) as Hsort.
  destruct (argmax_first_max _ _ Ha) as (Hr & Hmax & _).
  split.
  - destruct (in_dec Nat.eq_dec top_idx (Full.top_indices w predictions))
      as [Hin|Hnin]; [now left|right].
    apply Forall_forall. intros idx Hidx.
    unfold Full.ties. rewrite <- !key_score.
    apply Qle_antisym.
    + apply Hmax. exact (top_in_range _ _ Hsort idx Hidx).
    + exact (top_dominates _ _ Hsort idx top_idx Hidx Hr Hnin).
  - intros Hfew. unfold Full.top_indices, Np.last5.
    rewrite (argsort_length _ _ Hsort), length_map.
    replace (List.length predictions - 5) with 0 by lia.
    cbn [skipn]. apply -> in_rev. now apply (argsort_In _ _ Hsort).
Qed.

(** The theorem at six classes whose scores are 0.0 and five times
    -0.0, where the second case is the one that holds: [argmax] gives
    position 0, which the ranking of the last five positions of the sort
    leaves out.  The scores compare equal, and still the summary line
    shows 0.0% and every ranked line -0.0%. *)
Lemma top_class_is_ranked_or_all_tie_witness :
  ((In 0 (Full.top_indices (Full.healthy_world long_menu Full.flat_scores)
            Full.flat_scores)
    \/ Forall (fun idx => Full.ties Full.flat_scores idx 0)
              (Full.top_indices (Full.healthy_world long_menu Full.flat_scores)
                 Full.flat_scores))
   /\ (List.length Full.flat_scores <= 5 ->
       In 0 (Full.top_indices (Full.healthy_world long_menu Full.flat_scores)
               Full.flat_scores)))
  /\ Full.top_indices (Full.healthy_world long_menu Full.flat_scores)
       Full.flat_scores
     = [5; 4; 3; 2; 1]
  /\ Full.run (Full.healthy_world long_menu Full.flat_scores) argv_with_image
     = (0%Z,
        [ "Top prediction: apple_pie (0.0%)";
          "All predictions:";
          "1. falafel: -0.0%";
          "2. edamame: -0.0%";
          "3. donuts: -0.0%";
          "4. cannoli: -0.0%";
          "5. bibimbap: -0.0%" ]).
Proof.
  split; [|split].
  - apply (top_class_is_ranked_or_all_tie
             (Full.healthy_world long_menu Full.flat_scores)
             Full.flat_scores 0).
    + apply full_fixed_world_numpy_ok.
    + reflexivity.
  - reflexivity.
  - vm_compute. reflexivity.
Defined.



(** X7.  What ['.1f'] prints for a score is taken from the
    single-precision product of the score and 100: when that product is
    finite, the numeral printed reads back as a number within 0.05 of
    the product.  The product itself is rounded: for the float nearest
    to 0.0075 it is 0.75, printed as 0.8. *)
Theorem printed_percentage_within_0_05 (p : spec_float) :
  F32.is_finite (F32.times_100 p) = true ->
  Fmt.numeral_value (F32.format_1f (F32.times_100 p))
  = Some (F32.printed_value (F32.times_100 p))
  /\ (Qabs (F32.printed_value (F32.times_100 p) - F32.value (F32.times_100 p))
      <= 1 # 20)%Q.
Proof.
  intros H. split; [now apply f32_numeral_value|now apply f32_printed_value_close].
Qed.

(** The theorem at the float nearest to 0.0075. *)
Lemma printed_percentage_within_0_05_witness :
  (Fmt.numeral_value
     (F32.format_1f (F32.times_100 (F32.make 16106127 (-31))))
   = Some (F32.printed_value (F32.times_100 (F32.make 16106127 (-31))))
   /\ (Qabs (F32.printed_value (F32.times_100 (F32.make 16106127 (-31)))
             - F32.value (F32.times_100 (F32.make 16106127 (-31))))
       <= 1 # 20)%Q)
  /\ F32.format_1f (F32.times_100 (F32.make 16106127 (-31))) = "0.8"
  /\ (F32.value (F32.times_100 (F32.make 16106127 (-31))) == 3 # 4)%Q.
Proof.
  split; [|split].
  - apply (printed_percentage_within_0_05 (F32.make 16106127 (-31))).
    reflexivity.
  - vm_compute. reflexivity.
  - vm_compute. reflexivity.
Defined.



